(** * PitchRegistry: a write-once on-chain score registry

    Shallow embedding of [src/Pitch-registry.sol] (contract [PitchRegistry])
    and the properties its specification states about it, followed by
    further properties of the contract and of the browser script
    [src/Interact_script.js] (modules [PitchUI] and [PitchUIFacts]).

    Modelling choices, all taken from the Solidity source:
    - [uint256], [bytes32] and [address] values are naturals in [N]; the
      contract performs no arithmetic on them (only [==], [!=] and [> 0]),
      so no wrap-around ever takes place;
    - [mapping(bytes32 => PitchScoreEntry)] is a [gmap] read through
      [sload_pitchScores], which yields the all-zero struct at a key that
      was never written, as contract storage does;
    - a function body is a computation in the monad [Sol]: it reads the
      call context ([msg.sender], [block.timestamp]), threads the contract
      storage and the event log, and either returns or reverts with the
      reason string of the failing [require];
    - [transact] is a message call: a revert rolls storage back and drops
      the events of the call. *)

From stdpp Require Import gmap strings list.
From Stdlib Require Import NArith DecimalString HexadecimalString DecimalN.

Local Open Scope N_scope.

(** * The browser script

    Shallow embedding of [src/Interact_script.js], the script of
    [src/index.html].

    - Text the user types or uploads is a list of UTF-16 code units, the
      unit JavaScript's [length] counts; messages and identifiers the
      script builds itself are ASCII strings.
    - The elements the script looks up with [getElementById] are the
      fields of [Dom], each holding the one property the script reads or
      writes; a [classList] is the list of its tokens.
    - [Math.random] is an oracle: [Draws] holds, for each call site, the
      integer [Math.floor(Math.random() * k)] it produced.
    - The two [await]s are the reading of the chosen file and the
      simulated agent; both buttons are disabled while the handler waits,
      so a click handler runs from start to end on its own. *)

Module PitchUI.

(** ** Strings *)

(** The code units [String.prototype.trim] strips: white space and line
    terminators. *)
Definition isWhiteSpace (c : N) : bool :=
  (c =? 0x09) || (c =? 0x0A) || (c =? 0x0B) || (c =? 0x0C) || (c =? 0x0D)
  || (c =? 0x20) || (c =? 0xA0) || (c =? 0x1680)
  || ((0x2000 <=? c) && (c <=? 0x200A))
  || (c =? 0x2028) || (c =? 0x2029) || (c =? 0x202F) || (c =? 0x205F)
  || (c =? 0x3000) || (c =? 0xFEFF).

Fixpoint trimStart (s : list N) : list N :=
  match s with
  | [] => []
  | c :: rest => if isWhiteSpace c then trimStart rest else s
  end.

Definition trimEnd (s : list N) : list N := rev (trimStart (rev s)).

(** [s.trim()] *)
Definition trim (s : list N) : list N := trimEnd (trimStart s).

(** [String(n)] for a counter value: its decimal digits. *)
Definition String_of_number (n : N) : string :=
  DecimalString.NilEmpty.string_of_uint (N.to_uint n).

(** [n.toString(16)] for a non-negative integer: lower-case hex digits. *)
Definition toString16 (n : N) : string :=
  HexadecimalString.NilEmpty.string_of_uint (N.to_hex_uint n).

(** The first [k] characters of [cur] followed by repetitions of [fill]. *)
Fixpoint pad_cycle (k : nat) (fill cur : string) : string :=
  match k with
  | O => EmptyString
  | S k' =>
      match cur with
      | String c rest => String c (pad_cycle k' fill rest)
      | EmptyString =>
          match fill with
          | String c rest => String c (pad_cycle k' fill rest)
          | EmptyString => EmptyString
          end
      end
  end.

(** [s.padStart(targetLength, padString)] *)
Definition padStart (targetLength : nat) (padString s : string) : string :=
  if (targetLength <=? String.length s)%nat then s
  else pad_cycle (targetLength - String.length s) padString padString +:+ s.

(** ** The page *)

(** [classList.add], [classList.remove], [classList.contains] *)
Definition classList_contains (token : string) (l : list string) : bool :=
  existsb (String.eqb token) l.

Definition classList_add (token : string) (l : list string) : list string :=
  if classList_contains token l then l else l ++ [token].

Definition classList_remove (token : string) (l : list string) : list string :=
  List.filter (fun t => negb (String.eqb t token)) l.

(** What [FileReader.readAsText] delivers for a file: its text through
    [onload], or an error through [onerror]; [message] is the text
    [${error.message}] then evaluates to. *)
Inductive ReadResult : Type :=
| ReadOk (text : list N)
| ReadError (message : string).

Record File : Type := mkFile {
  name : list N;
  readAsText : ReadResult
}.

(** The [textContent] of the thirteen result elements. *)
Record Display : Type := mkDisplay {
  overallScore : string;
  clarityScore : string;
  clarityReasoning : string;
  originalityScore : string;
  originalityReasoning : string;
  teamStrengthScore : string;
  teamStrengthReasoning : string;
  marketFitScore : string;
  marketFitReasoning : string;
  teeProcessed : string;
  zkpHash : string;
  onChainTx : string;
  status : string
}.

Record Dom : Type := mkDom {
  pitchFile : option File;        (* pitchFile.files[0] *)
  pitchText : list N;             (* pitchText.value *)
  analyzeBtn : bool;              (* analyzeBtn.disabled *)
  clearBtn : bool;                (* clearBtn.disabled *)
  loadingSpinner : list string;   (* loadingSpinner.classList *)
  buttonText : string;            (* buttonText.textContent *)
  resultsSection : list string;   (* resultsSection.classList *)
  messageBox_text : string;       (* messageBox.textContent *)
  messageBox_class : list string; (* messageBox.classList *)
  display : Display
}.

(** The page as [index.html] declares it. *)
Definition initial_dom : Dom :=
  mkDom None [] false false
        ["loading-spinner"; "hidden"]%string "Analyze Pitch"
        ["hidden"]%string
        "" ["p-4"; "rounded-lg"; "text-lg"; "hidden"]%string
        (mkDisplay "" "" "" "" "" "" "" "" "" "" "" "" "").

(** The page and the script's variable [pitchIdCounter]. *)
Record Page : Type := mkPage {
  dom : Dom;
  pitchIdCounter : N
}.

Definition initial_page : Page := mkPage initial_dom 0.

(** [function showMessage(message, type = 'info')] *)
Definition showMessage (message type : string) (d : Dom) : Dom :=
  mkDom (pitchFile d) (pitchText d) (analyzeBtn d) (clearBtn d)
        (loadingSpinner d) (buttonText d) (resultsSection d)
        message
        (classList_remove "hidden"
           (["p-4"; "rounded-lg"; "text-lg"; "mb-4"; "block"]%string ++
            (if String.eqb type "error"
             then ["bg-red-100"; "text-red-700"]%string
             else ["bg-green-100"; "text-green-700"]%string)))
        (display d).

(** [function hideMessage()] *)
Definition hideMessage (d : Dom) : Dom :=
  mkDom (pitchFile d) (pitchText d) (analyzeBtn d) (clearBtn d)
        (loadingSpinner d) (buttonText d) (resultsSection d)
        (messageBox_text d)
        (classList_add "hidden" (messageBox_class d))
        (display d).

(** [resultsSection.classList.add('hidden')] and [.remove('hidden')] *)
Definition hideResults (d : Dom) : Dom :=
  mkDom (pitchFile d) (pitchText d) (analyzeBtn d) (clearBtn d)
        (loadingSpinner d) (buttonText d)
        (classList_add "hidden" (resultsSection d))
        (messageBox_text d) (messageBox_class d) (display d).

Definition unhideResults (d : Dom) : Dom :=
  mkDom (pitchFile d) (pitchText d) (analyzeBtn d) (clearBtn d)
        (loadingSpinner d) (buttonText d)
        (classList_remove "hidden" (resultsSection d))
        (messageBox_text d) (messageBox_class d) (display d).

(** [function setLoading(isLoading)] *)
Definition setLoading (isLoading : bool) (d : Dom) : Dom :=
  if isLoading then
    hideResults (hideMessage
      (mkDom (pitchFile d) (pitchText d) true true
             (classList_remove "hidden" (loadingSpinner d)) "Analyzing..."
             (resultsSection d) (messageBox_text d) (messageBox_class d)
             (display d)))
  else
    mkDom (pitchFile d) (pitchText d) false false
          (classList_add "hidden" (loadingSpinner d)) "Analyze Pitch"
          (resultsSection d) (messageBox_text d) (messageBox_class d)
          (display d).

(** ** The simulated agent *)

Record Payload : Type := mkPayload {
  pitch_id : string;
  pitch_content : option (list N);   (* [None] is [null] *)
  file_path : option (list N)
}.

(** The values [Math.floor(Math.random() * 10)] took at the five score
    sites, and [Math.floor(Math.random() * 256)] at the [i]-th call of
    each of the two [Array.from] callbacks. *)
Record Draws : Type := mkDraws {
  draw_overall : N;
  draw_clarity : N;
  draw_originality : N;
  draw_team_strength : N;
  draw_market_fit : N;
  draw_zkp_hash : nat -> N;
  draw_tx_hash : nat -> N
}.

(** The object [simulateAgentRun] returns; [error] is a property it does
    not set. *)
Record Results : Type := mkResults {
  res_pitch_id : string;
  overall_score : N;
  clarity : N;
  originality : N;
  team_strength : N;
  market_fit : N;
  clarity_reasoning : string;
  originality_reasoning : string;
  team_strength_reasoning : string;
  market_fit_reasoning : string;
  tee_processed : bool;
  zkp_hash : string;
  res_status : string;
  on_chain_tx_hash : string;
  error : option string
}.

(** ["0x" + Array.from({length: 32}, () => byte.toString(16).padStart(2, '0')).join('')] *)
Definition hex32 (draw : nat -> N) : string :=
  "0x" +:+ String.concat ""
             (map (fun i => padStart 2 "0" (toString16 (draw i))) (seq 0 32)).

(** [async function simulateAgentRun(payload)] *)
Definition simulateAgentRun (rnd : Draws) (payload : Payload) : Results :=
  {| res_pitch_id := pitch_id payload;
     overall_score := draw_overall rnd + 1;
     clarity := draw_clarity rnd + 1;
     originality := draw_originality rnd + 1;
     team_strength := draw_team_strength rnd + 1;
     market_fit := draw_market_fit rnd + 1;
     clarity_reasoning := "Mock: Clarity is based on a structured approach.";
     originality_reasoning :=
       "Mock: Originality is high due to unique market perspective.";
     team_strength_reasoning := "Mock: Team has diverse experience.";
     market_fit_reasoning := "Mock: Strong problem-solution alignment.";
     tee_processed := true;
     zkp_hash := hex32 (draw_zkp_hash rnd);
     res_status := "completed";
     on_chain_tx_hash := hex32 (draw_tx_hash rnd);
     error := None |}.

(** [n || 'N/A'] shown as text, for a number [n]: 0 is falsy. *)
Definition number_or (n : N) (alt : string) : string :=
  if n =? 0 then alt else String_of_number n.

(** [s || alt] for a string [s]: the empty string is falsy. *)
Definition string_or (s alt : string) : string :=
  if String.eqb s "" then alt else s.

(** [function displayResults(results)] *)
Definition displayResults (results : Results) (d : Dom) : Dom :=
  mkDom (pitchFile d) (pitchText d) (analyzeBtn d) (clearBtn d)
        (loadingSpinner d) (buttonText d) (resultsSection d)
        (messageBox_text d) (messageBox_class d)
        {| overallScore := number_or (overall_score results) "N/A";
           clarityScore := number_or (clarity results) "N/A";
           clarityReasoning := string_or (clarity_reasoning results) "";
           originalityScore := number_or (originality results) "N/A";
           originalityReasoning := string_or (originality_reasoning results) "";
           teamStrengthScore := number_or (team_strength results) "N/A";
           teamStrengthReasoning := string_or (team_strength_reasoning results) "";
           marketFitScore := number_or (market_fit results) "N/A";
           marketFitReasoning := string_or (market_fit_reasoning results) "";
           teeProcessed := if tee_processed results then "Yes" else "No";
           zkpHash := string_or (zkp_hash results) "N/A";
           onChainTx := string_or (on_chain_tx_hash results) "N/A";
           status := string_or (res_status results) "N/A" |}.

(** ** The two click handlers *)

Inductive InputType : Type := input_file | input_text.

(** [`pitch_${String(pitchIdCounter).padStart(3, '0')}`] *)
Definition currentPitchId (pitchIdCounter : N) : string :=
  "pitch_" +:+ padStart 3 "0" (String_of_number pitchIdCounter).

(** The handler of [analyzeBtn] from [pitchIdCounter++] on: the input
    passed the checks. *)
Definition submit (rnd : Draws) (p : Page) (inputType : InputType)
    (pitchContent : list N) (file : option File) : Page * option Payload :=
  let counter := pitchIdCounter p + 1 in
  let payload :=
    {| pitch_id := currentPitchId counter;
       pitch_content :=
         match inputType with input_text => Some pitchContent | input_file => None end;
       file_path :=
         match inputType with input_file => name <$> file | input_text => None end |} in
  let simulatedResponse := simulateAgentRun rnd payload in
  let d :=
    if String.eqb (res_status simulatedResponse) "failed" then
      hideResults
        (showMessage ("Analysis Failed: " +:+ default "undefined" (error simulatedResponse))
                     "error" (dom p))
    else
      unhideResults
        (showMessage "Pitch analysis completed successfully!" "success"
                     (displayResults simulatedResponse (dom p))) in
  (mkPage (setLoading false d) counter, Some payload).

(** The input failed a check: the message is shown and the handler
    returns. *)
Definition reject (message : string) (p : Page) : Page * option Payload :=
  (mkPage (setLoading false (showMessage message "error" (dom p))) (pitchIdCounter p),
   None).

(** The page once [setLoading(true)], the handler's first statement, has
    run. *)
Definition loading (p : Page) : Page :=
  mkPage (setLoading true (dom p)) (pitchIdCounter p).

(** [analyzeBtn.addEventListener('click', async () => ...)]: the page
    after the handler, and the payload it sent to the agent, if any. *)
Definition analyzeClick (rnd : Draws) (p0 : Page) : Page * option Payload :=
  let p := loading p0 in
  let pitchContent := trim (pitchText (dom p)) in
  let file := pitchFile (dom p) in
  match file with
  | Some f =>
      match readAsText f with
      | ReadOk fileText =>
          if 20000 <? N.of_nat (length fileText) then
            reject "File is too large. Please upload files under 20KB for this demo." p
          else submit rnd p input_file fileText file
      | ReadError message =>
          reject ("Error reading file: " +:+ message) p
      end
  | None =>
      match pitchContent with
      | _ :: _ =>
          if 10000 <? N.of_nat (length pitchContent) then
            reject "Pitch text is too long. Please keep it under 10KB for this demo." p
          else submit rnd p input_text pitchContent file
      | [] => reject "Please upload a pitch file or paste pitch text." p
      end
  end.

(** [clearBtn.addEventListener('click', () => ...)] *)
Definition clearClick (p : Page) : Page :=
  let d := dom p in
  let d1 := mkDom None [] (analyzeBtn d) (clearBtn d) (loadingSpinner d)
                  (buttonText d) (resultsSection d)
                  (messageBox_text d) (messageBox_class d) (display d) in
  mkPage (setLoading false (hideMessage (hideResults d1))) (pitchIdCounter p).

(** ** Sessions *)

(** What the user does between two clicks on [analyzeBtn]: choose a file
    or not, and edit the text. *)
Record Submission : Type := mkSubmission {
  chosen_file : option File;
  typed_text : list N;
  draws : Draws
}.

Definition fill_in (s : Submission) (p : Page) : Page :=
  let d := dom p in
  mkPage (mkDom (chosen_file s) (typed_text s) (analyzeBtn d) (clearBtn d)
                (loadingSpinner d) (buttonText d) (resultsSection d)
                (messageBox_text d) (messageBox_class d) (display d))
         (pitchIdCounter p).

(** A sequence of submissions, each analysed in turn: the final page and
    the payloads sent, in order. *)
Fixpoint session (p : Page) (subs : list Submission) : Page * list Payload :=
  match subs with
  | [] => (p, [])
  | s :: rest =>
      let (p', sent) := analyzeClick (draws s) (fill_in s p) in
      let (p'', more) := session p' rest in
      (p'', match sent with Some pl => pl :: more | None => more end)
  end.

End PitchUI.


Module PitchRegistry.

(** ** Solidity value types *)

Abbreviation uint256 := N (only parsing).
Abbreviation bytes32 := N (only parsing).
Abbreviation address := N (only parsing).

(** ** Data model *)

(** [struct PitchScoreEntry] *)
Record PitchScoreEntry : Type := mkEntry {
  overallScore      : uint256;
  clarityScore      : uint256;
  originalityScore  : uint256;
  teamStrengthScore : uint256;
  marketFitScore    : uint256;
  zkpHash           : bytes32;
  timestamp         : uint256;
  recordedBy        : address
}.

(** The value of a storage slot that was never written. *)
Definition zeroEntry : PitchScoreEntry := mkEntry 0 0 0 0 0 0 0 0.

(** [event PitchScoreRecorded] *)
Record PitchScoreRecorded : Type := mkEvent {
  ev_pitchId      : bytes32;
  ev_overallScore : uint256;
  ev_zkpHash      : bytes32;
  ev_timestamp    : uint256;
  ev_recordedBy   : address
}.

(** The state variables of the contract: [pitchScores] and [owner]. *)
Record Storage : Type := mkStorage {
  pitchScores : gmap N PitchScoreEntry;
  owner       : address
}.

(** What the execution substrate provides to a call. *)
Record Env : Type := mkEnv {
  msg_sender      : address;
  block_timestamp : uint256
}.

(** Storage together with the events emitted so far by the running call. *)
Record Machine : Type := mkMachine {
  storage : Storage;
  log     : list PitchScoreRecorded
}.

(** ** The execution monad *)

Inductive Outcome (A : Type) : Type :=
| Return (a : A)
| Revert (reason : string).
Arguments Return {A} a.
Arguments Revert {A} reason.

Definition Sol (A : Type) : Type := Env -> Machine -> Outcome A * Machine.

Definition ret {A} (a : A) : Sol A := fun _ m => (Return a, m).

Definition bind {A B} (c : Sol A) (k : A -> Sol B) : Sol B :=
  fun env m =>
    match c env m with
    | (Return a, m') => k a env m'
    | (Revert r, m') => (Revert r, m')
    end.

Notation "x <- c ;; k" := (bind c (fun x => k))
  (at level 100, c at next level, right associativity).
Notation "c ;; k" := (bind c (fun _ => k))
  (at level 100, right associativity).

(** [require(cond, reason)] *)
Definition require (cond : bool) (reason : string) : Sol unit :=
  fun _ m => if cond then (Return tt, m) else (Revert reason, m).

(** [msg.sender] and [block.timestamp] *)
Definition msgSender : Sol address := fun env m => (Return (msg_sender env), m).
Definition blockTimestamp : Sol uint256 :=
  fun env m => (Return (block_timestamp env), m).

(** Reading [pitchScores[id]]: the zero struct where nothing was stored. *)
Definition sload_pitchScores (id : bytes32) (st : Storage) : PitchScoreEntry :=
  default zeroEntry (pitchScores st !! id).

Definition read_pitchScores (id : bytes32) : Sol PitchScoreEntry :=
  fun _ m => (Return (sload_pitchScores id (storage m)), m).

Definition read_owner : Sol address :=
  fun _ m => (Return (owner (storage m)), m).

(** [pitchScores[id] = e] *)
Definition write_pitchScores (id : bytes32) (e : PitchScoreEntry) : Sol unit :=
  fun _ m =>
    (Return tt,
     mkMachine (mkStorage (<[id := e]> (pitchScores (storage m)))
                          (owner (storage m)))
               (log m)).

(** [owner = a] *)
Definition write_owner (a : address) : Sol unit :=
  fun _ m =>
    (Return tt, mkMachine (mkStorage (pitchScores (storage m)) a) (log m)).

(** [emit PitchScoreRecorded(...)] *)
Definition emit (ev : PitchScoreRecorded) : Sol unit :=
  fun _ m => (Return tt, mkMachine (storage m) (log m ++ [ev])).

(** ** The contract *)

(** [constructor() { owner = msg.sender; }] *)
Definition constructor : Sol unit :=
  sender <- msgSender ;;
  write_owner sender.

(** [modifier onlyOwner()] *)
Definition onlyOwner {A} (body : Sol A) : Sol A :=
  sender <- msgSender ;;
  o <- read_owner ;;
  require (sender =? o) "Only owner can call this function" ;;
  body.

(** [function recordPitchScore(...) external onlyOwner] *)
Definition recordPitchScore
    (_pitchId : bytes32) (_overallScore _clarityScore _originalityScore
     _teamStrengthScore _marketFitScore : uint256) (_zkpHash : bytes32)
  : Sol unit :=
  onlyOwner (
    entry <- read_pitchScores _pitchId ;;
    require (timestamp entry =? 0) "Pitch score already recorded for this ID" ;;
    require (0 <? _overallScore) "Overall score must be positive" ;;
    now <- blockTimestamp ;;
    sender <- msgSender ;;
    write_pitchScores _pitchId
      {| overallScore := _overallScore;
         clarityScore := _clarityScore;
         originalityScore := _originalityScore;
         teamStrengthScore := _teamStrengthScore;
         marketFitScore := _marketFitScore;
         zkpHash := _zkpHash;
         timestamp := now;
         recordedBy := sender |} ;;
    emit (mkEvent _pitchId _overallScore _zkpHash now sender)).

(** The tuple returned by [getPitchScore] and by the getter of
    [pitchScores]: the eight members of the struct, in order. *)
Definition EntryTuple : Type := (N * N * N * N * N * N * N * N)%type.

Definition tuple_of (e : PitchScoreEntry) : EntryTuple :=
  (overallScore e, clarityScore e, originalityScore e, teamStrengthScore e,
   marketFitScore e, zkpHash e, timestamp e, recordedBy e).

(** [function getPitchScore(bytes32) external view] *)
Definition getPitchScore (_pitchId : bytes32) : Sol EntryTuple :=
  entry <- read_pitchScores _pitchId ;;
  require (negb (timestamp entry =? 0)) "Pitch score not found for this ID" ;;
  ret (tuple_of entry).

(** The getters the compiler generates for the two [public] state
    variables. *)
Definition pitchScores_getter (_pitchId : bytes32) : Sol EntryTuple :=
  entry <- read_pitchScores _pitchId ;;
  ret (tuple_of entry).

Definition owner_getter : Sol address := read_owner.

(** ** Message calls *)

(** The external interface of the deployed contract. *)
Inductive Call : Type :=
| call_recordPitchScore
    (_pitchId : bytes32) (_overallScore _clarityScore _originalityScore
     _teamStrengthScore _marketFitScore : uint256) (_zkpHash : bytes32)
| call_getPitchScore (_pitchId : bytes32)
| call_pitchScores (_pitchId : bytes32)
| call_owner.

Inductive RetVal : Type :=
| ret_unit
| ret_entry (t : EntryTuple)
| ret_address (a : address).

Definition dispatch (c : Call) : Sol RetVal :=
  match c with
  | call_recordPitchScore id ov cl og tm mk zk =>
      recordPitchScore id ov cl og tm mk zk ;; ret ret_unit
  | call_getPitchScore id => t <- getPitchScore id ;; ret (ret_entry t)
  | call_pitchScores id => t <- pitchScores_getter id ;; ret (ret_entry t)
  | call_owner => a <- owner_getter ;; ret (ret_address a)
  end.

Record Receipt : Type := mkReceipt {
  status : Outcome RetVal;
  post   : Storage;
  logs   : list PitchScoreRecorded
}.

(** A message call: the body runs on the current storage with an empty
    log; when it reverts, the storage is the one before the call and no
    event of the call survives. *)
Definition transact (env : Env) (c : Call) (st : Storage) : Receipt :=
  match dispatch c env (mkMachine st []) with
  | (Return v, m) => mkReceipt (Return v) (storage m) (log m)
  | (Revert r, _) => mkReceipt (Revert r) st []
  end.

(** Contract creation: the constructor runs on zeroed storage. *)
Definition deploy (env : Env) : Storage :=
  storage (snd (constructor env (mkMachine (mkStorage ∅ 0) []))).

(** A transaction is a call together with the context it executes in. *)
Definition Tx : Type := (Env * Call)%type.

(** The storage after a sequence of transactions. *)
Fixpoint run (st : Storage) (txs : list Tx) : Storage :=
  match txs with
  | [] => st
  | (env, c) :: rest => run (post (transact env c st)) rest
  end.

Definition is_Return {A} (o : Outcome A) : bool :=
  match o with Return _ => true | Revert _ => false end.

(** Does the transaction [tx], executed on [st], record a score for
    [id] successfully? *)
Definition records (id : bytes32) (st : Storage) (tx : Tx) : bool :=
  match snd tx with
  | call_recordPitchScore id' _ _ _ _ _ _ =>
      (id' =? id) && is_Return (status (transact (fst tx) (snd tx) st))
  | _ => false
  end.

(** Was a score for [id] recorded successfully somewhere along [txs],
    started on [st]? *)
Fixpoint recorded (id : bytes32) (st : Storage) (txs : list Tx) : bool :=
  match txs with
  | [] => false
  | tx :: rest =>
      records id st tx || recorded id (post (transact (fst tx) (snd tx) st)) rest
  end.

(** ** Error kinds

    The specification's names for the four revert reasons. *)
Definition Unauthorized : string := "Only owner can call this function".
Definition DuplicateEntry : string := "Pitch score already recorded for this ID".
Definition InvalidScore : string := "Overall score must be positive".
Definition NotFound : string := "Pitch score not found for this ID".

(** A record exists for [id] when its stored timestamp is not zero: the
    test both [recordPitchScore] and [getPitchScore] make. *)
Definition exists_entry (id : bytes32) (st : Storage) : bool :=
  negb (timestamp (sload_pitchScores id st) =? 0).

(** A reverted call: storage as before, no event. *)
Definition reverted (st : Storage) (reason : string) : Receipt :=
  mkReceipt (Revert reason) st [].

(** The struct [recordPitchScore] stores when called in context [env]. *)
Definition new_entry (env : Env) (ov cl og tm mk zk : N) : PitchScoreEntry :=
  mkEntry ov cl og tm mk zk (block_timestamp env) (msg_sender env).

(** ** The storage invariant

    Every struct ever stored has a positive overall score and names the
    owner as its recorder. *)
Definition entry_ok (o : address) (e : PitchScoreEntry) : Prop :=
  0 < overallScore e /\ recordedBy e = o.

Definition storage_ok (st : Storage) : Prop :=
  map_Forall (fun _ e => entry_ok (owner st) e) (pitchScores st).

(** ** The scenarios of the specification *)

Definition agent : Env := mkEnv 1 100.
Definition stranger : Env := mkEnv 2 101.

(** The registry after the agent deployed it and recorded pitch 7 with
    scores (80, 20, 18, 22, 20) and proof hash 0xAA. *)
Definition scenario_A_storage : Storage :=
  post (transact agent (call_recordPitchScore 7 80 20 18 22 20 170) (deploy agent)).

(** ** Executions, continued: the event stream *)

(** The events a sequence of transactions emits, in order. *)
Fixpoint run_logs (st : Storage) (txs : list Tx) : list PitchScoreRecorded :=
  match txs with
  | [] => []
  | (env, c) :: rest =>
      logs (transact env c st) ++ run_logs (post (transact env c st)) rest
  end.

(** The event [recordPitchScore] emits for the struct it stores under [id]. *)
Definition event_of (id : bytes32) (e : PitchScoreEntry) : PitchScoreRecorded :=
  mkEvent id (overallScore e) (zkpHash e) (timestamp e) (recordedBy e).

(** The only entry point that is not a [view]. *)
Definition is_write (tx : Tx) : bool :=
  match snd tx with
  | call_recordPitchScore _ _ _ _ _ _ _ => true
  | _ => false
  end.

(** The transaction executes in a block whose timestamp is not 0. *)
Definition clock_nonzero (tx : Tx) : bool := negb (block_timestamp (fst tx) =? 0).

(** The transaction is not sent by [a]. *)
Definition not_from (a : address) (tx : Tx) : bool := negb (msg_sender (fst tx) =? a).

(** The seventh member of the returned tuple, [timestamp]. *)
Definition tuple_timestamp (t : EntryTuple) : uint256 := snd (fst t).

(** The state of a registry all of whose writes happened at nonzero
    timestamps, against the events [L] emitted so far. *)
Definition trail_ok (st : Storage) (L : list PitchScoreRecorded) : Prop :=
  map_Forall (fun _ e => timestamp e <> 0) (pitchScores st)
  /\ (forall ev, ev ∈ L ->
        exists e, pitchScores st !! ev_pitchId ev = Some e
                  /\ ev = event_of (ev_pitchId ev) e)
  /\ NoDup (map ev_pitchId L)
  /\ size (pitchScores st) = length L.

(** ** What a call does: one equation per entry point *)

Section CallEquations.

Variables (env : Env) (st : Storage).

Lemma transact_recordPitchScore id ov cl og tm mk zk :
  transact env (call_recordPitchScore id ov cl og tm mk zk) st =
    if negb (msg_sender env =? owner st) then reverted st Unauthorized
    else if exists_entry id st then reverted st DuplicateEntry
    else if negb (0 <? ov) then reverted st InvalidScore
    else mkReceipt (Return ret_unit)
           (mkStorage (<[id := new_entry env ov cl og tm mk zk]> (pitchScores st))
                      (owner st))
           [mkEvent id ov zk (block_timestamp env) (msg_sender env)].
Proof.
  unfold transact, dispatch, recordPitchScore, onlyOwner, exists_entry,
    bind, require, msgSender, read_owner, read_pitchScores; simpl.
  destruct (msg_sender env =? owner st); simpl; [|reflexivity].
  destruct (timestamp (sload_pitchScores id st) =? 0); simpl; [|reflexivity].
  destruct (0 <? ov); reflexivity.
Qed.

Lemma transact_getPitchScore id :
  transact env (call_getPitchScore id) st =
    if exists_entry id st
    then mkReceipt (Return (ret_entry (tuple_of (sload_pitchScores id st)))) st []
    else reverted st NotFound.
Proof.
  unfold transact, dispatch, getPitchScore, exists_entry, bind, require,
    read_pitchScores, ret; simpl.
  destruct (timestamp (sload_pitchScores id st) =? 0); reflexivity.
Qed.

Lemma transact_pitchScores id :
  transact env (call_pitchScores id) st =
    mkReceipt (Return (ret_entry (tuple_of (sload_pitchScores id st)))) st [].
Proof. reflexivity. Qed.

Lemma transact_owner :
  transact env call_owner st =
    mkReceipt (Return (ret_address (owner st))) st [].
Proof. reflexivity. Qed.

(** A reverted call leaves the storage and emits nothing. *)
Lemma transact_revert c r :
  status (transact env c st) = Revert r ->
  post (transact env c st) = st /\ logs (transact env c st) = [].
Proof.
  unfold transact. destruct (dispatch c env (mkMachine st [])) as [[v|r'] m];
    simpl; [discriminate | auto].
Qed.

(** No call changes [owner]. *)
Lemma transact_owner_fixed c : owner (post (transact env c st)) = owner st.
Proof.
  destruct c; [rewrite transact_recordPitchScore | rewrite transact_getPitchScore
              | rewrite transact_pitchScores | rewrite transact_owner ];
    repeat (match goal with |- context [if ?b then _ else _] => destruct b end);
    reflexivity.
Qed.

End CallEquations.

Lemma sload_insert_eq id e m o :
  sload_pitchScores id (mkStorage (<[id := e]> m) o) = e.
Proof. unfold sload_pitchScores; simpl. by rewrite lookup_insert_eq. Qed.

Lemma deploy_eq env : deploy env = mkStorage ∅ (msg_sender env).
Proof. reflexivity. Qed.

(** ** Executions *)

Lemma run_owner st txs : owner (run st txs) = owner st.
Proof.
  revert st; induction txs as [|[env c] rest IH]; intros st; simpl; auto.
  rewrite IH. apply transact_owner_fixed.
Qed.

(** A call keeps every record that exists, whoever makes it. *)
Lemma transact_keeps_existing env c st id :
  exists_entry id st = true ->
  pitchScores (post (transact env c st)) !! id = pitchScores st !! id.
Proof.
  intros Hex. destruct c as [id' ov cl og tm mk zk|id'|id'|].
  - rewrite transact_recordPitchScore.
    destruct (negb (msg_sender env =? owner st)); [reflexivity|].
    destruct (exists_entry id' st) eqn:Hex'; [reflexivity|].
    destruct (negb (0 <? ov)); [reflexivity|]. simpl.
    apply lookup_insert_ne. intros ->. congruence.
  - rewrite transact_getPitchScore. destruct (exists_entry id' st); reflexivity.
  - reflexivity.
  - reflexivity.
Qed.

Lemma exists_entry_lookup id st st' :
  pitchScores st' !! id = pitchScores st !! id ->
  exists_entry id st' = exists_entry id st.
Proof. unfold exists_entry, sload_pitchScores. by intros ->. Qed.

Lemma run_keeps_existing st txs id :
  exists_entry id st = true ->
  pitchScores (run st txs) !! id = pitchScores st !! id.
Proof.
  revert st; induction txs as [|[env c] rest IH]; intros st Hex; simpl; auto.
  pose proof (transact_keeps_existing env c st id Hex) as Hstep.
  rewrite IH; [exact Hstep|].
  by rewrite (exists_entry_lookup _ _ _ Hstep).
Qed.

(** A transaction that does not record [id] leaves [pitchScores[id]]. *)
Lemma transact_not_records env c st id :
  records id st (env, c) = false ->
  pitchScores (post (transact env c st)) !! id = pitchScores st !! id.
Proof.
  unfold records; simpl. destruct c as [id' ov cl og tm mk zk|id'|id'|].
  - rewrite transact_recordPitchScore.
    destruct (negb (msg_sender env =? owner st)); [reflexivity|].
    destruct (exists_entry id' st); [reflexivity|].
    destruct (negb (0 <? ov)); [reflexivity|]. simpl.
    rewrite andb_true_r. intros Hne%N.eqb_neq.
    by apply lookup_insert_ne.
  - rewrite transact_getPitchScore. destruct (exists_entry id' st); reflexivity.
  - reflexivity.
  - reflexivity.
Qed.

Lemma run_not_recorded st txs id :
  recorded id st txs = false ->
  pitchScores (run st txs) !! id = pitchScores st !! id.
Proof.
  revert st; induction txs as [|[env c] rest IH]; intros st; simpl; auto.
  intros [Hhd Htl]%orb_false_elim.
  rewrite (IH _ Htl). by apply transact_not_records.
Qed.

(** ** The storage invariant is established and kept *)

Lemma deploy_ok env : storage_ok (deploy env).
Proof. rewrite deploy_eq. unfold storage_ok; simpl. apply map_Forall_empty. Qed.

Lemma transact_ok env c st : storage_ok st -> storage_ok (post (transact env c st)).
Proof.
  intros Hok. destruct c as [id ov cl og tm mk zk|id|id|].
  - rewrite transact_recordPitchScore.
    destruct (msg_sender env =? owner st) eqn:Hown; simpl; [|exact Hok].
    destruct (exists_entry id st); [exact Hok|].
    destruct (0 <? ov) eqn:Hpos; simpl; [|exact Hok].
    unfold storage_ok; simpl. apply map_Forall_insert_2; [|exact Hok].
    split; simpl; [by apply N.ltb_lt | by apply N.eqb_eq].
  - rewrite transact_getPitchScore. destruct (exists_entry id st); exact Hok.
  - exact Hok.
  - exact Hok.
Qed.

Lemma run_ok st txs : storage_ok st -> storage_ok (run st txs).
Proof.
  revert st; induction txs as [|[env c] rest IH]; intros st Hok; simpl; auto.
  apply IH, transact_ok, Hok.
Qed.

Lemma reachable_ok env0 txs : storage_ok (run (deploy env0) txs).
Proof. apply run_ok, deploy_ok. Qed.

(** An existing record is a stored one. *)
Lemma exists_entry_stored id st :
  exists_entry id st = true ->
  pitchScores st !! id = Some (sload_pitchScores id st).
Proof.
  unfold exists_entry, sload_pitchScores.
  destruct (pitchScores st !! id); simpl; [reflexivity | discriminate].
Qed.

Lemma exists_entry_true id st :
  exists_entry id st = true <-> timestamp (sload_pitchScores id st) <> 0.
Proof.
  unfold exists_entry. rewrite negb_true_iff. apply N.eqb_neq.
Qed.

(** The four reasons tell the failing check apart. *)
Lemma error_kinds_distinct :
  Unauthorized <> DuplicateEntry /\ Unauthorized <> InvalidScore /\
  Unauthorized <> NotFound /\ DuplicateEntry <> InvalidScore /\
  DuplicateEntry <> NotFound /\ InvalidScore <> NotFound.
Proof. repeat split; discriminate. Qed.

(** ** Scenarios of the specification, run on the model *)

Example scenario_A :
  status (transact agent (call_recordPitchScore 7 80 20 18 22 20 170) (deploy agent))
    = Return ret_unit /\
  status (transact stranger (call_getPitchScore 7) scenario_A_storage)
    = Return (ret_entry (80, 20, 18, 22, 20, 170, 100, 1)).
Proof. split; reflexivity. Qed.

Example scenario_B :
  status (transact agent (call_recordPitchScore 7 55 1 2 3 4 187) scenario_A_storage)
    = Revert DuplicateEntry /\
  post (transact agent (call_recordPitchScore 7 55 1 2 3 4 187) scenario_A_storage)
    = scenario_A_storage /\
  status (transact stranger (call_getPitchScore 7) scenario_A_storage)
    = Return (ret_entry (80, 20, 18, 22, 20, 170, 100, 1)).
Proof. repeat split; reflexivity. Qed.

Example scenario_C :
  status (transact stranger (call_recordPitchScore 8 80 20 18 22 20 170) scenario_A_storage)
    = Revert Unauthorized /\
  status (transact stranger (call_getPitchScore 8) scenario_A_storage) = Revert NotFound.
Proof. split; reflexivity. Qed.

Example scenario_D :
  status (transact agent (call_recordPitchScore 9 0 20 18 22 20 170) scenario_A_storage)
    = Revert InvalidScore /\
  status (transact agent (call_getPitchScore 9) scenario_A_storage) = Revert NotFound.
Proof. split; reflexivity. Qed.

(** ** Properties of the write path *)

(** C1, the claim as stated does not hold. (a) After the owner recorded
    pitch 7, a call for pitch 7 by another identity fails with
    Unauthorized, not with DuplicateEntry. (b) A record written in a block
    whose timestamp is 0 does not count as existing: a second call for the
    same pitch succeeds and replaces the stored record. *)
Lemma write_once_counterexample :
  (let st0 := deploy (mkEnv 1 100) in
   let r1 := transact (mkEnv 1 100) (call_recordPitchScore 7 80 20 18 22 20 170) st0 in
   let r2 := transact (mkEnv 2 101) (call_recordPitchScore 7 55 1 2 3 4 187) (post r1) in
   status r1 = Return ret_unit /\
   status r2 = Revert Unauthorized /\
   status r2 <> Revert DuplicateEntry)
  /\
  (let st0 := deploy (mkEnv 1 0) in
   let r1 := transact (mkEnv 1 0) (call_recordPitchScore 7 80 20 18 22 20 170) st0 in
   let r2 := transact (mkEnv 1 5) (call_recordPitchScore 7 55 1 2 3 4 187) (post r1) in
   status r1 = Return ret_unit /\
   status r2 = Return ret_unit /\
   sload_pitchScores 7 (post r1) = mkEntry 80 20 18 22 20 170 0 1 /\
   sload_pitchScores 7 (post r2) = mkEntry 55 1 2 3 4 187 5 1).
Proof. vm_compute. repeat split; discriminate. Qed.

(** C1 (amended), write-once: when a [recordPitchScore] call for [id]
    succeeded in a block whose timestamp is not 0, then after any further
    transactions every [recordPitchScore] call for [id], whatever its
    payload, fails (with DuplicateEntry when the owner makes it, with
    Unauthorized otherwise), changes nothing, and [id] still maps to the
    record of that first call. *)
Theorem write_once env1 st id ov cl og tm mk zk txs env2 ov' cl' og' tm' mk' zk' :
  let r1 := transact env1 (call_recordPitchScore id ov cl og tm mk zk) st in
  let st' := run (post r1) txs in
  let r2 := transact env2 (call_recordPitchScore id ov' cl' og' tm' mk' zk') st' in
  status r1 = Return ret_unit ->
  block_timestamp env1 <> 0 ->
  status r2 = Revert (if msg_sender env2 =? owner st
                      then DuplicateEntry else Unauthorized)
  /\ post r2 = st'
  /\ logs r2 = []
  /\ pitchScores st' !! id = Some (new_entry env1 ov cl og tm mk zk)
  /\ pitchScores (post r2) !! id = Some (new_entry env1 ov cl og tm mk zk).
Proof.
  intros r1 st' r2 Hok Hts.
  assert (Hpost : pitchScores (post r1) !! id
                  = Some (new_entry env1 ov cl og tm mk zk)).
  { subst r1. revert Hok. rewrite transact_recordPitchScore.
    repeat (match goal with |- context [if ?b then _ else _] => destruct b end);
      simpl; try discriminate.
    intros _. apply lookup_insert_eq. }
  assert (Hex : exists_entry id (post r1) = true).
  { apply exists_entry_true. unfold sload_pitchScores. rewrite Hpost. exact Hts. }
  assert (Hst' : pitchScores st' !! id = Some (new_entry env1 ov cl og tm mk zk)).
  { subst st'. rewrite run_keeps_existing; assumption. }
  assert (Hex' : exists_entry id st' = true).
  { rewrite (exists_entry_lookup id (post r1) st'); [exact Hex|]. congruence. }
  assert (Hown : owner st' = owner st).
  { subst st' r1. rewrite run_owner. apply transact_owner_fixed. }
  assert (Hr2 : r2 = reverted st' (if msg_sender env2 =? owner st
                                   then DuplicateEntry else Unauthorized)).
  { subst r2. rewrite transact_recordPitchScore, Hown, Hex'.
    destruct (msg_sender env2 =? owner st); reflexivity. }
  rewrite Hr2. simpl. auto.
Qed.

Lemma write_once_witness :
  let env1 := mkEnv 1 100 in
  let r1 := transact env1 (call_recordPitchScore 7 80 20 18 22 20 170) (deploy env1) in
  let st' := run (post r1) [(mkEnv 2 101, call_recordPitchScore 8 1 1 1 1 1 1);
                            (mkEnv 1 102, call_recordPitchScore 8 60 1 1 1 1 1)] in
  let r2 := transact (mkEnv 1 103) (call_recordPitchScore 7 55 1 2 3 4 187) st' in
  status r2 = Revert DuplicateEntry
  /\ post r2 = st'
  /\ logs r2 = []
  /\ pitchScores st' !! 7 = Some (mkEntry 80 20 18 22 20 170 100 1)
  /\ pitchScores (post r2) !! 7 = Some (mkEntry 80 20 18 22 20 170 100 1).
Proof.
  apply (write_once (mkEnv 1 100) (deploy (mkEnv 1 100)) 7 80 20 18 22 20 170
           [(mkEnv 2 101, call_recordPitchScore 8 1 1 1 1 1 1);
            (mkEnv 1 102, call_recordPitchScore 8 60 1 1 1 1 1)]
           (mkEnv 1 103) 55 1 2 3 4 187).
  - reflexivity.
  - simpl. discriminate.
Defined.

(** C2, authorization: in every state reached from deployment, a
    [recordPitchScore] call whose sender is not the deployer reverts with
    Unauthorized, stores nothing and emits nothing, whatever the pitch id
    and the scores. *)
Theorem unauthorized_caller_rejected env0 txs env id ov cl og tm mk zk :
  let st := run (deploy env0) txs in
  msg_sender env <> msg_sender env0 ->
  transact env (call_recordPitchScore id ov cl og tm mk zk) st
    = mkReceipt (Revert Unauthorized) st [].
Proof.
  intros st Hne. rewrite transact_recordPitchScore.
  subst st. rewrite run_owner, deploy_eq; simpl.
  apply N.eqb_neq in Hne. rewrite Hne. reflexivity.
Qed.

Lemma unauthorized_caller_rejected_witness :
  let st := run (deploy (mkEnv 1 100)) [] in
  exists_entry 9 st = false /\
  transact (mkEnv 2 101) (call_recordPitchScore 9 80 20 18 22 20 170) st
    = mkReceipt (Revert Unauthorized) st [].
Proof.
  split; [reflexivity|].
  apply (unauthorized_caller_rejected (mkEnv 1 100) [] (mkEnv 2 101)).
  simpl. discriminate.
Defined.

(** C3, atomicity: a [recordPitchScore] call that fails one of its three
    checks reverts, its receipt carries the storage of before the call and
    no event, and the body itself had written nothing and emitted nothing
    when it stopped. *)
Theorem failed_write_is_atomic env st id ov cl og tm mk zk :
  let r := transact env (call_recordPitchScore id ov cl og tm mk zk) st in
  msg_sender env <> owner st \/ exists_entry id st = true \/ ov = 0 ->
  is_Return (status r) = false
  /\ post r = st
  /\ logs r = []
  /\ snd (recordPitchScore id ov cl og tm mk zk env (mkMachine st []))
       = mkMachine st [].
Proof.
  intros r Hfail.
  assert (Hbody : snd (recordPitchScore id ov cl og tm mk zk env (mkMachine st []))
                  = mkMachine st []
                  \/ (msg_sender env =? owner st) = true
                     /\ exists_entry id st = false /\ (0 <? ov) = true).
  { unfold recordPitchScore, onlyOwner, exists_entry, bind, require, msgSender,
      read_owner, read_pitchScores; simpl.
    destruct (msg_sender env =? owner st); simpl; [|by left].
    destruct (timestamp (sload_pitchScores id st) =? 0); simpl; [|by left].
    destruct (0 <? ov); simpl; [by right | by left]. }
  assert (Hrev : (msg_sender env =? owner st) = true
                 /\ exists_entry id st = false /\ (0 <? ov) = true -> False).
  { intros (Ho%N.eqb_eq & He & Hp%N.ltb_lt).
    destruct Hfail as [H|[H|H]]; [congruence | congruence | lia]. }
  destruct Hbody as [Hbody|Hbody]; [|by destruct Hrev].
  subst r. rewrite transact_recordPitchScore.
  destruct (msg_sender env =? owner st) eqn:Ho; simpl; [|by auto].
  destruct (exists_entry id st) eqn:He; [by auto|].
  destruct (0 <? ov) eqn:Hp; simpl; [|by auto].
  by destruct Hrev.
Qed.

Lemma failed_write_is_atomic_witness :
  let env := mkEnv 1 100 in
  let st := deploy env in
  let r := transact env (call_recordPitchScore 9 0 20 18 22 20 170) st in
  is_Return (status r) = false
  /\ post r = st
  /\ logs r = []
  /\ snd (recordPitchScore 9 0 20 18 22 20 170 env (mkMachine st []))
       = mkMachine st [].
Proof.
  apply (failed_write_is_atomic (mkEnv 1 100) (deploy (mkEnv 1 100)) 9 0 20 18 22 20 170).
  right; right; reflexivity.
Defined.

(** C4, precondition order: the outcome of [recordPitchScore] is decided
    by the first failing check among (1) sender is the owner, (2) no
    record exists for the pitch id, (3) the overall score is positive. In
    particular a stranger writing an existing id gets Unauthorized, not
    DuplicateEntry, and the owner writing an existing id with overall
    score 0 gets DuplicateEntry, not InvalidScore. *)
Theorem precondition_order env st id ov cl og tm mk zk :
  let r := transact env (call_recordPitchScore id ov cl og tm mk zk) st in
  status r =
    (if negb (msg_sender env =? owner st) then Revert Unauthorized
     else if exists_entry id st then Revert DuplicateEntry
     else if ov =? 0 then Revert InvalidScore
     else Return ret_unit)
  /\ (msg_sender env <> owner st -> exists_entry id st = true ->
      status r = Revert Unauthorized /\ status r <> Revert DuplicateEntry)
  /\ (msg_sender env = owner st -> exists_entry id st = true -> ov = 0 ->
      status r = Revert DuplicateEntry /\ status r <> Revert InvalidScore).
Proof.
  intros r. subst r. rewrite transact_recordPitchScore.
  split; [|split].
  - destruct (negb (msg_sender env =? owner st)); [reflexivity|].
    destruct (exists_entry id st); [reflexivity|].
    destruct ov; reflexivity.
  - intros Hne%N.eqb_neq ->. rewrite Hne. simpl. split; [reflexivity|discriminate].
  - intros Heq%N.eqb_eq -> ->. rewrite Heq. simpl. split; [reflexivity|discriminate].
Qed.

Lemma precondition_order_witness :
  let st := post (transact (mkEnv 1 100) (call_recordPitchScore 7 80 20 18 22 20 170)
                    (deploy (mkEnv 1 100))) in
  status (transact (mkEnv 2 101) (call_recordPitchScore 7 0 1 2 3 4 187) st)
    = Revert Unauthorized
  /\ status (transact (mkEnv 1 101) (call_recordPitchScore 7 0 1 2 3 4 187) st)
    = Revert DuplicateEntry.
Proof.
  split.
  - apply (precondition_order (mkEnv 2 101)
             (post (transact (mkEnv 1 100) (call_recordPitchScore 7 80 20 18 22 20 170)
                      (deploy (mkEnv 1 100)))) 7 0 1 2 3 4 187);
      [simpl; discriminate | reflexivity].
  - apply (precondition_order (mkEnv 1 101)
             (post (transact (mkEnv 1 100) (call_recordPitchScore 7 80 20 18 22 20 170)
                      (deploy (mkEnv 1 100)))) 7 0 1 2 3 4 187);
      reflexivity.
Defined.

(** C5, the claim as stated does not hold: with overall score 0, a call by
    a stranger fails with Unauthorized, and a call by the owner for an
    existing pitch id fails with DuplicateEntry; neither fails with
    InvalidScore. *)
Lemma zero_score_counterexample :
  let st0 := deploy (mkEnv 1 100) in
  let r1 := transact (mkEnv 2 101) (call_recordPitchScore 7 0 20 18 22 20 170) st0 in
  let st1 := post (transact (mkEnv 1 100) (call_recordPitchScore 7 80 20 18 22 20 170) st0) in
  let r2 := transact (mkEnv 1 101) (call_recordPitchScore 7 0 20 18 22 20 170) st1 in
  (status r1 = Revert Unauthorized /\ status r1 <> Revert InvalidScore)
  /\ (status r2 = Revert DuplicateEntry /\ status r2 <> Revert InvalidScore).
Proof. vm_compute. repeat split; discriminate. Qed.

(** C5 (amended), positivity: in every state reached from deployment, a
    [recordPitchScore] call with overall score 0 reverts, stores nothing
    and emits nothing; its reason is InvalidScore when the sender is the
    deployer and no record exists for the pitch id, and the reason of the
    earlier failing check otherwise. Every stored record, hence every
    existing one, has a positive overall score. *)
Theorem zero_score_rejected env0 txs env id cl og tm mk zk :
  let st := run (deploy env0) txs in
  let r := transact env (call_recordPitchScore id 0 cl og tm mk zk) st in
  status r = Revert (if negb (msg_sender env =? msg_sender env0) then Unauthorized
                     else if exists_entry id st then DuplicateEntry
                     else InvalidScore)
  /\ post r = st
  /\ logs r = []
  /\ (forall id' e, pitchScores st !! id' = Some e -> 0 < overallScore e)
  /\ (forall id', exists_entry id' st = true ->
                  0 < overallScore (sload_pitchScores id' st)).
Proof.
  intros st r.
  assert (Hown : owner st = msg_sender env0).
  { subst st. by rewrite run_owner, deploy_eq. }
  assert (Hinv : forall id' e, pitchScores st !! id' = Some e -> 0 < overallScore e).
  { intros id' e He. by destruct (reachable_ok env0 txs id' e He). }
  assert (Hr : r = reverted st
                     (if negb (msg_sender env =? msg_sender env0) then Unauthorized
                      else if exists_entry id st then DuplicateEntry
                      else InvalidScore)).
  { subst r. rewrite transact_recordPitchScore, Hown.
    destruct (negb (msg_sender env =? msg_sender env0)); [reflexivity|].
    destruct (exists_entry id st); reflexivity. }
  rewrite Hr; simpl. repeat split; auto.
  intros id' Hex. apply (Hinv id'), exists_entry_stored, Hex.
Qed.

Lemma zero_score_rejected_witness :
  let env0 := mkEnv 1 100 in
  let st := run (deploy env0) [(env0, call_recordPitchScore 7 80 20 18 22 20 170)] in
  status (transact (mkEnv 1 101) (call_recordPitchScore 9 0 20 18 22 20 170) st)
    = Revert InvalidScore
  /\ 0 < overallScore (sload_pitchScores 7 st).
Proof.
  pose proof (zero_score_rejected (mkEnv 1 100)
                [(mkEnv 1 100, call_recordPitchScore 7 80 20 18 22 20 170)]
                (mkEnv 1 101) 9 20 18 22 20 170) as (Hst & _ & _ & _ & Hpos).
  split; [exact Hst | apply (Hpos 7); reflexivity].
Defined.

(** ** Properties of the read paths *)

(** C6, read consistency. (1) While no [recordPitchScore] call for [id]
    has succeeded since deployment, [getPitchScore id] reverts with
    NotFound. (2) Once such a call has succeeded, [getPitchScore id]
    returns, then and after any further transactions, the six submitted
    values followed by the timestamp and the sender of that call; the
    call is one a chain executes, so its block timestamp is not 0 (every
    block that carries transactions has a timestamp above its parent's).
    (3) [getPitchScore] changes no storage and emits nothing, and (4) its
    result does not depend on the context of the call, so on no
    identity. *)
Theorem read_consistency :
  (forall env0 txs id env,
      recorded id (deploy env0) txs = false ->
      status (transact env (call_getPitchScore id) (run (deploy env0) txs))
        = Revert NotFound)
  /\ (forall env1 st id ov cl og tm mk zk txs env,
      let r1 := transact env1 (call_recordPitchScore id ov cl og tm mk zk) st in
      status r1 = Return ret_unit ->
      block_timestamp env1 <> 0 ->
      status (transact env (call_getPitchScore id) (run (post r1) txs))
        = Return (ret_entry (ov, cl, og, tm, mk, zk,
                             block_timestamp env1, msg_sender env1)))
  /\ (forall env st id,
      post (transact env (call_getPitchScore id) st) = st
      /\ logs (transact env (call_getPitchScore id) st) = [])
  /\ (forall env env' st id,
      transact env (call_getPitchScore id) st
        = transact env' (call_getPitchScore id) st).
Proof.
  split; [|split; [|split]].
  - intros env0 txs id env Hnot. rewrite transact_getPitchScore.
    rewrite (exists_entry_lookup id (deploy env0)).
    + reflexivity.
    + by apply run_not_recorded.
  - intros env1 st id ov cl og tm mk zk txs env r1 Hok Hts.
    assert (Hpost : pitchScores (post r1) !! id
                    = Some (new_entry env1 ov cl og tm mk zk)).
    { subst r1. revert Hok. rewrite transact_recordPitchScore.
      repeat (match goal with |- context [if ?b then _ else _] => destruct b end);
        simpl; try discriminate.
      intros _. apply lookup_insert_eq. }
    assert (Hex : exists_entry id (post r1) = true).
    { apply exists_entry_true. unfold sload_pitchScores. rewrite Hpost. exact Hts. }
    pose proof (run_keeps_existing (post r1) txs id Hex) as Hkeep.
    rewrite transact_getPitchScore.
    rewrite (exists_entry_lookup id (post r1) _ Hkeep), Hex.
    unfold sload_pitchScores. rewrite Hkeep, Hpost. reflexivity.
  - intros env st id. rewrite transact_getPitchScore.
    destruct (exists_entry id st); auto.
  - intros env env' st id. by rewrite !transact_getPitchScore.
Qed.

Lemma read_consistency_witness :
  let env0 := mkEnv 1 100 in
  let st0 := deploy env0 in
  let r1 := transact (mkEnv 1 101) (call_recordPitchScore 7 80 20 18 22 20 170) st0 in
  status (transact (mkEnv 2 102) (call_getPitchScore 7)
            (run st0 [(mkEnv 1 101, call_recordPitchScore 8 60 1 1 1 1 1)]))
    = Revert NotFound
  /\ status (transact (mkEnv 2 103) (call_getPitchScore 7)
               (run (post r1) [(mkEnv 1 102, call_recordPitchScore 7 55 1 2 3 4 187)]))
    = Return (ret_entry (80, 20, 18, 22, 20, 170, 101, 1)).
Proof.
  destruct read_consistency as (Hbefore & Hafter & _).
  split.
  - apply (Hbefore (mkEnv 1 100)
             [(mkEnv 1 101, call_recordPitchScore 8 60 1 1 1 1 1)] 7 (mkEnv 2 102)).
    reflexivity.
  - apply (Hafter (mkEnv 1 101) (deploy (mkEnv 1 100)) 7 80 20 18 22 20 170
             [(mkEnv 1 102, call_recordPitchScore 7 55 1 2 3 4 187)] (mkEnv 2 103)).
    + reflexivity.
    + simpl. discriminate.
Defined.

(** C7, notification correspondence. (1) A [recordPitchScore] call by
    the owner, for a pitch id without a record and with a positive
    overall score, succeeds, stores the record and emits exactly one
    event. (2) Whenever a call succeeds, its log is exactly one event,
    which carries the pitch id of the call and the overall score, proof
    hash, timestamp and recorder of the record the call stored; these are
    the submitted score and hash, the block timestamp and the sender.
    (3) A failed call emits no event. *)
Theorem notification_correspondence env st id ov cl og tm mk zk :
  let r := transact env (call_recordPitchScore id ov cl og tm mk zk) st in
  let e := sload_pitchScores id (post r) in
  (msg_sender env = owner st -> exists_entry id st = false -> 0 < ov ->
     status r = Return ret_unit
     /\ e = mkEntry ov cl og tm mk zk (block_timestamp env) (msg_sender env)
     /\ logs r = [mkEvent id (overallScore e) (zkpHash e) (timestamp e) (recordedBy e)]
     /\ logs r = [mkEvent id ov zk (block_timestamp env) (msg_sender env)])
  /\ (if is_Return (status r)
      then logs r = [mkEvent id (overallScore e) (zkpHash e) (timestamp e) (recordedBy e)]
           /\ pitchScores (post r) !! id
                = Some (mkEntry ov cl og tm mk zk (block_timestamp env) (msg_sender env))
           /\ logs r = [mkEvent id ov zk (block_timestamp env) (msg_sender env)]
      else logs r = []).
Proof.
  intros r e. subst e r. rewrite transact_recordPitchScore. split.
  - intros Ho%N.eqb_eq He Hp%N.ltb_lt. rewrite Ho, He, Hp. simpl.
    rewrite sload_insert_eq. simpl. auto.
  - destruct (negb (msg_sender env =? owner st)); [reflexivity|].
    destruct (exists_entry id st); [reflexivity|].
    destruct (negb (0 <? ov)); [reflexivity|]. simpl.
    rewrite sload_insert_eq. simpl.
    split; [reflexivity|]. split; [apply lookup_insert_eq | reflexivity].
Qed.

Lemma notification_correspondence_witness :
  let r := transact (mkEnv 1 100) (call_recordPitchScore 7 80 20 18 22 20 170)
             (deploy (mkEnv 1 100)) in
  let e := sload_pitchScores 7 (post r) in
  status r = Return ret_unit
  /\ e = mkEntry 80 20 18 22 20 170 100 1
  /\ logs r = [mkEvent 7 (overallScore e) (zkpHash e) (timestamp e) (recordedBy e)]
  /\ logs r = [mkEvent 7 80 170 100 1].
Proof.
  destruct (notification_correspondence (mkEnv 1 100) (deploy (mkEnv 1 100))
              7 80 20 18 22 20 170) as [Hok _].
  apply Hok; reflexivity.
Defined.

(** C8, fixed trust root: deployment sets [owner] to the deployer, and in
    every state reached from deployment by calls of the interface, with
    any senders, [owner] is still the deployer, before and after any
    further call; the getter [owner()] returns it. *)
Theorem owner_fixed env0 txs env c :
  let st := run (deploy env0) txs in
  owner (deploy env0) = msg_sender env0
  /\ owner st = msg_sender env0
  /\ owner (post (transact env c st)) = msg_sender env0
  /\ status (transact env call_owner st) = Return (ret_address (msg_sender env0)).
Proof.
  intros st.
  assert (Hown : owner st = msg_sender env0).
  { subst st. by rewrite run_owner, deploy_eq. }
  rewrite transact_owner_fixed, transact_owner, Hown. simpl. auto.
Qed.

(** C9: in every state reached from deployment, every stored record, and
    so every existing one, has the deployer (the owner) as [recordedBy]. *)
Theorem recordedBy_is_owner env0 txs id :
  let st := run (deploy env0) txs in
  exists_entry id st = true ->
  recordedBy (sload_pitchScores id st) = msg_sender env0
  /\ recordedBy (sload_pitchScores id st) = owner st
  /\ (forall id' e, pitchScores st !! id' = Some e -> recordedBy e = msg_sender env0).
Proof.
  intros st Hex.
  assert (Hown : owner st = msg_sender env0).
  { subst st. by rewrite run_owner, deploy_eq. }
  assert (Hinv : forall id' e, pitchScores st !! id' = Some e ->
                               recordedBy e = msg_sender env0).
  { intros id' e He. destruct (reachable_ok env0 txs id' e He) as [_ Hby].
    fold st in Hby. congruence. }
  pose proof (Hinv id _ (exists_entry_stored id st Hex)).
  repeat split; auto; congruence.
Qed.

Lemma recordedBy_is_owner_witness :
  let env0 := mkEnv 1 100 in
  let st := run (deploy env0) [(mkEnv 2 101, call_recordPitchScore 7 90 1 1 1 1 1);
                               (mkEnv 1 102, call_recordPitchScore 7 80 20 18 22 20 170)] in
  exists_entry 7 st = true
  /\ recordedBy (sload_pitchScores 7 st) = 1.
Proof.
  split; [reflexivity|].
  apply (recordedBy_is_owner (mkEnv 1 100)
           [(mkEnv 2 101, call_recordPitchScore 7 90 1 1 1 1 1);
            (mkEnv 1 102, call_recordPitchScore 7 80 20 18 22 20 170)] 7).
  reflexivity.
Defined.

(** C10: the generated getter [pitchScores(id)] is a second read path.
    For an [id] for which no [recordPitchScore] call has succeeded since
    deployment it does not revert: it returns the tuple of eight zeros,
    changing nothing, where [getPitchScore id] reverts with NotFound. *)
Theorem pitchScores_getter_unrecorded env0 txs id env :
  let st := run (deploy env0) txs in
  recorded id (deploy env0) txs = false ->
  transact env (call_pitchScores id) st
    = mkReceipt (Return (ret_entry (0, 0, 0, 0, 0, 0, 0, 0))) st []
  /\ status (transact env (call_getPitchScore id) st) = Revert NotFound.
Proof.
  intros st Hnot.
  assert (Hnone : pitchScores st !! id = None).
  { subst st. rewrite run_not_recorded; [|exact Hnot]. reflexivity. }
  rewrite transact_pitchScores, transact_getPitchScore.
  unfold exists_entry, sload_pitchScores. rewrite Hnone. simpl. auto.
Qed.

Lemma pitchScores_getter_unrecorded_witness :
  let env0 := mkEnv 1 100 in
  let txs := [(mkEnv 1 101, call_recordPitchScore 7 80 20 18 22 20 170);
              (mkEnv 2 102, call_recordPitchScore 8 80 20 18 22 20 170)] in
  let st := run (deploy env0) txs in
  recorded 8 (deploy env0) txs = false
  /\ transact (mkEnv 3 103) (call_pitchScores 8) st
       = mkReceipt (Return (ret_entry (0, 0, 0, 0, 0, 0, 0, 0))) st []
  /\ status (transact (mkEnv 3 103) (call_getPitchScore 8) st) = Revert NotFound.
Proof.
  split; [reflexivity|].
  apply (pitchScores_getter_unrecorded (mkEnv 1 100)
           [(mkEnv 1 101, call_recordPitchScore 7 80 20 18 22 20 170);
            (mkEnv 2 102, call_recordPitchScore 8 80 20 18 22 20 170)] 8 (mkEnv 3 103)).
  reflexivity.
Defined.

(** ** Further properties of the registry *)

(** A call either changes nothing and emits nothing, or it is an accepted
    [recordPitchScore]: one insertion and one event. *)
Lemma transact_cases env c st :
  (post (transact env c st) = st /\ logs (transact env c st) = [])
  \/ (exists id ov cl og tm mk zk,
        c = call_recordPitchScore id ov cl og tm mk zk
        /\ msg_sender env = owner st
        /\ exists_entry id st = false
        /\ 0 < ov
        /\ post (transact env c st)
             = mkStorage (<[id := new_entry env ov cl og tm mk zk]> (pitchScores st))
                         (owner st)
        /\ logs (transact env c st)
             = [event_of id (new_entry env ov cl og tm mk zk)]).
Proof.
  destruct c as [id ov cl og tm mk zk|id|id|].
  - rewrite transact_recordPitchScore.
    destruct (msg_sender env =? owner st) eqn:Ho; simpl; [|by left].
    destruct (exists_entry id st) eqn:He; [by left|].
    destruct (0 <? ov) eqn:Hp; simpl; [|by left].
    right. exists id, ov, cl, og, tm, mk, zk.
    apply N.eqb_eq in Ho. apply N.ltb_lt in Hp. auto 10.
  - left. rewrite transact_getPitchScore. destruct (exists_entry id st); auto.
  - left. auto.
  - left. auto.
Qed.

(** Where every stored struct has a nonzero timestamp, an id without an
    existing record has no stored struct at all. *)
Lemma fresh_when_stamped id st :
  map_Forall (fun _ e => timestamp e <> 0) (pitchScores st) ->
  exists_entry id st = false ->
  pitchScores st !! id = None.
Proof.
  intros Hall Hex. destruct (pitchScores st !! id) as [e|] eqn:He; [|reflexivity].
  pose proof (Hall id e He) as Hts.
  unfold exists_entry, sload_pitchScores in Hex. rewrite He in Hex. simpl in Hex.
  apply negb_false_iff, N.eqb_eq in Hex. contradiction.
Qed.

(** X1, frame: a [recordPitchScore] call for [id], whatever its outcome,
    leaves the stored struct of every other pitch id, and [owner], as they
    were. *)
Theorem record_touches_one_id env st id ov cl og tm mk zk id' :
  let r := transact env (call_recordPitchScore id ov cl og tm mk zk) st in
  id' <> id ->
  pitchScores (post r) !! id' = pitchScores st !! id'
  /\ sload_pitchScores id' (post r) = sload_pitchScores id' st
  /\ owner (post r) = owner st.
Proof.
  intros r Hne.
  assert (Hlk : pitchScores (post r) !! id' = pitchScores st !! id').
  { subst r.
    destruct (transact_cases env (call_recordPitchScore id ov cl og tm mk zk) st)
      as [[-> _]|(i & o & c1 & c2 & c3 & c4 & z & Hc & _ & _ & _ & -> & _)];
      [reflexivity|].
    injection Hc as <- _ _ _ _ _ _. simpl. by apply lookup_insert_ne. }
  split; [exact Hlk|]. split.
  - unfold sload_pitchScores. by rewrite Hlk.
  - apply transact_owner_fixed.
Qed.

Lemma record_touches_one_id_witness :
  let st := scenario_A_storage in
  let r := transact agent (call_recordPitchScore 8 60 1 2 3 4 5) st in
  status r = Return ret_unit
  /\ pitchScores (post r) !! 7 = pitchScores st !! 7
  /\ sload_pitchScores 7 (post r) = sload_pitchScores 7 st
  /\ owner (post r) = owner st.
Proof.
  split; [reflexivity|].
  apply (record_touches_one_id agent scenario_A_storage 8 60 1 2 3 4 5 7).
  discriminate.
Defined.

(** X2: the four component scores and the proof hash play no part in
    whether a [recordPitchScore] call is accepted: two calls that agree on
    sender, pitch id and overall score have the same status, whatever
    their components and hashes (zero, or larger than the overall score). *)
Theorem acceptance_ignores_components env env' st id ov
    cl og tm mk zk cl' og' tm' mk' zk' :
  msg_sender env = msg_sender env' ->
  status (transact env (call_recordPitchScore id ov cl og tm mk zk) st)
    = status (transact env' (call_recordPitchScore id ov cl' og' tm' mk' zk') st).
Proof.
  intros Hs. rewrite !transact_recordPitchScore, Hs.
  repeat (match goal with |- context [if ?b then _ else _] => destruct b end);
    reflexivity.
Qed.

Lemma acceptance_ignores_components_witness :
  status (transact (mkEnv 1 100) (call_recordPitchScore 7 5 0 0 0 0 0) (deploy agent))
    = status (transact (mkEnv 1 200) (call_recordPitchScore 7 5 900 900 900 900 170)
                (deploy agent)).
Proof.
  apply (acceptance_ignores_components (mkEnv 1 100) (mkEnv 1 200) (deploy agent) 7 5
           0 0 0 0 0 900 900 900 900 170).
  reflexivity.
Defined.

(** X3: transactions not sent by the owner never change the registry:
    after any sequence of them the storage is the same and no event was
    emitted. *)
Theorem strangers_change_nothing st txs :
  forallb (not_from (owner st)) txs = true ->
  run st txs = st /\ run_logs st txs = [].
Proof.
  induction txs as [|[env c] rest IH]; simpl; [auto|].
  intros [Hhd Htl]%andb_true_iff.
  assert (Hstep : post (transact env c st) = st /\ logs (transact env c st) = []).
  { destruct (transact_cases env c st)
      as [H|(i & o & c1 & c2 & c3 & c4 & z & _ & Ho & _)]; [exact H|].
    unfold not_from in Hhd; simpl in Hhd.
    apply negb_true_iff, N.eqb_neq in Hhd. contradiction. }
  destruct Hstep as [-> ->]. simpl. auto.
Qed.

Lemma strangers_change_nothing_witness :
  let txs := [(stranger, call_recordPitchScore 7 55 1 2 3 4 187);
              (mkEnv 3 102, call_recordPitchScore 8 80 20 18 22 20 170);
              (stranger, call_getPitchScore 7)] in
  run scenario_A_storage txs = scenario_A_storage
  /\ run_logs scenario_A_storage txs = [].
Proof.
  apply (strangers_change_nothing scenario_A_storage
           [(stranger, call_recordPitchScore 7 55 1 2 3 4 187);
            (mkEnv 3 102, call_recordPitchScore 8 80 20 18 22 20 170);
            (stranger, call_getPitchScore 7)]).
  reflexivity.
Defined.

(** *** The event stream as an audit trail *)

Lemma run_logs_complete st txs (L : list PitchScoreRecorded) :
  (forall id e, pitchScores st !! id = Some e -> event_of id e ∈ L) ->
  forall id e, pitchScores (run st txs) !! id = Some e ->
               event_of id e ∈ L ++ run_logs st txs.
Proof.
  revert st L; induction txs as [|[env c] rest IH]; intros st L Hinv; simpl.
  - intros id e He. rewrite app_nil_r. by apply Hinv.
  - rewrite app_assoc. apply IH.
    destruct (transact_cases env c st)
      as [[-> ->]|(i & o & c1 & c2 & c3 & c4 & z & _ & _ & _ & _ & -> & ->)].
    + rewrite app_nil_r. exact Hinv.
    + simpl. intros id e He. apply elem_of_app.
      destruct (decide (i = id)) as [->|Hne].
      * rewrite lookup_insert_eq in He. injection He as <-.
        right. apply list_elem_of_singleton. reflexivity.
      * rewrite lookup_insert_ne in He by exact Hne. left. by apply Hinv.
Qed.

(** X4, the audit trail is complete: in every state reached from
    deployment, each stored record was announced: the events emitted on
    the way contain one with its pitch id, overall score, proof hash,
    timestamp and recorder. *)
Theorem audit_trail_complete env0 txs id e :
  pitchScores (run (deploy env0) txs) !! id = Some e ->
  event_of id e ∈ run_logs (deploy env0) txs.
Proof.
  intros He.
  apply (run_logs_complete (deploy env0) txs [] ); [|exact He].
  intros id' e' H. rewrite deploy_eq in H. simpl in H.
  by rewrite lookup_empty in H.
Qed.

Lemma audit_trail_complete_witness :
  let txs := [(agent, call_recordPitchScore 7 80 20 18 22 20 170);
              (stranger, call_recordPitchScore 8 1 1 1 1 1 1);
              (mkEnv 1 102, call_recordPitchScore 9 60 1 2 3 4 5)] in
  pitchScores (run (deploy agent) txs) !! 9 = Some (mkEntry 60 1 2 3 4 5 102 1)
  /\ mkEvent 9 60 5 102 1 ∈ run_logs (deploy agent) txs.
Proof.
  split; [reflexivity|].
  apply (audit_trail_complete agent
           [(agent, call_recordPitchScore 7 80 20 18 22 20 170);
            (stranger, call_recordPitchScore 8 1 1 1 1 1 1);
            (mkEnv 1 102, call_recordPitchScore 9 60 1 2 3 4 5)]
           9 (mkEntry 60 1 2 3 4 5 102 1)).
  reflexivity.
Defined.

Lemma trail_ok_deploy env0 : trail_ok (deploy env0) [].
Proof.
  rewrite deploy_eq. repeat split; simpl.
  - apply map_Forall_empty.
  - intros ev Hev. by apply elem_of_nil in Hev.
  - constructor.
Qed.

Lemma trail_ok_step env c st L :
  block_timestamp env <> 0 ->
  trail_ok st L ->
  trail_ok (post (transact env c st)) (L ++ logs (transact env c st)).
Proof.
  intros Hts (Hstamp & Hev & Hnd & Hsz).
  destruct (transact_cases env c st)
    as [[-> ->]|(i & o & c1 & c2 & c3 & c4 & z & _ & _ & Hfresh & _ & -> & ->)].
  - rewrite app_nil_r. repeat split; assumption.
  - pose proof (fresh_when_stamped i st Hstamp Hfresh) as Hnone.
    assert (Hnew : forall ev, ev ∈ L -> ev_pitchId ev <> i).
    { intros ev Hin Heq. destruct (Hev ev Hin) as (e & He & _). congruence. }
    repeat split; simpl.
    + apply map_Forall_insert_2; [exact Hts | exact Hstamp].
    + intros ev [Hin|Hin%list_elem_of_singleton]%elem_of_app.
      * destruct (Hev ev Hin) as (e & He & Heq). exists e. split; [|exact Heq].
        rewrite lookup_insert_ne; [exact He|]. intros Hi. by apply (Hnew ev Hin).
      * subst ev. simpl. eexists. split; [apply lookup_insert_eq | reflexivity].
    + rewrite map_app. simpl. apply NoDup_app. split; [exact Hnd|]. split.
      * intros x Hx Hx'. apply list_elem_of_singleton in Hx'. subst x.
        apply list_elem_of_fmap in Hx as (ev & Heq & Hin).
        by apply (Hnew ev Hin).
      * apply NoDup_singleton.
    + rewrite map_size_insert_None by exact Hnone.
      rewrite length_app. simpl. lia.
Qed.

Lemma trail_ok_run st txs L :
  forallb clock_nonzero txs = true ->
  trail_ok st L ->
  trail_ok (run st txs) (L ++ run_logs st txs).
Proof.
  revert st L; induction txs as [|[env c] rest IH]; intros st L; simpl.
  - intros _ H. by rewrite app_nil_r.
  - intros [Hhd Htl]%andb_true_iff Hok. rewrite app_assoc.
    apply IH; [exact Htl|]. apply trail_ok_step; [|exact Hok].
    unfold clock_nonzero in Hhd; simpl in Hhd.
    by apply negb_true_iff, N.eqb_neq in Hhd.
Qed.

(** X5, the audit trail is sound: when every transaction since
    deployment ran in a block with a nonzero timestamp, each emitted event
    describes the record now stored under its pitch id, and no two events
    carry the same pitch id. *)
Theorem audit_trail_sound env0 txs :
  let st := run (deploy env0) txs in
  let L := run_logs (deploy env0) txs in
  forallb clock_nonzero txs = true ->
  (forall ev, ev ∈ L ->
     exists e, pitchScores st !! ev_pitchId ev = Some e
               /\ ev = event_of (ev_pitchId ev) e)
  /\ NoDup (map ev_pitchId L).
Proof.
  intros st L Hclk.
  destruct (trail_ok_run (deploy env0) txs [] Hclk (trail_ok_deploy env0))
    as (_ & Hev & Hnd & _).
  split; assumption.
Qed.

Lemma audit_trail_sound_witness :
  let txs := [(agent, call_recordPitchScore 7 80 20 18 22 20 170);
              (mkEnv 1 101, call_recordPitchScore 7 55 1 2 3 4 187);
              (mkEnv 1 102, call_recordPitchScore 9 60 1 2 3 4 5)] in
  run_logs (deploy agent) txs = [mkEvent 7 80 170 100 1; mkEvent 9 60 5 102 1]
  /\ NoDup (map ev_pitchId (run_logs (deploy agent) txs)).
Proof.
  split; [reflexivity|].
  apply (audit_trail_sound agent
           [(agent, call_recordPitchScore 7 80 20 18 22 20 170);
            (mkEnv 1 101, call_recordPitchScore 7 55 1 2 3 4 187);
            (mkEnv 1 102, call_recordPitchScore 9 60 1 2 3 4 5)]).
  reflexivity.
Defined.

Lemma run_size_le st txs :
  (size (pitchScores (run st txs)) <= size (pitchScores st) + length (run_logs st txs))%nat.
Proof.
  revert st; induction txs as [|[env c] rest IH]; intros st; simpl; [lia|].
  specialize (IH (post (transact env c st))). rewrite length_app.
  destruct (transact_cases env c st)
    as [[Hp Hl]|(i & o & c1 & c2 & c3 & c4 & z & _ & _ & _ & _ & Hp & Hl)];
    rewrite Hp, Hl in *; simpl in *; [lia|].
  rewrite map_size_insert in IH.
  destruct (pitchScores st !! i); simpl in IH; lia.
Qed.

(** X6, records and events count alike: a registry never holds more
    records than events were emitted since deployment, and it holds
    exactly as many when every transaction ran in a block with a nonzero
    timestamp. *)
Theorem one_record_per_event env0 txs :
  let st := run (deploy env0) txs in
  let L := run_logs (deploy env0) txs in
  (size (pitchScores st) <= length L)%nat
  /\ (forallb clock_nonzero txs = true -> size (pitchScores st) = length L).
Proof.
  intros st L. split.
  - pose proof (run_size_le (deploy env0) txs) as H.
    rewrite deploy_eq in H at 2. simpl in H. rewrite map_size_empty in H. exact H.
  - intros Hclk.
    by destruct (trail_ok_run (deploy env0) txs [] Hclk (trail_ok_deploy env0))
      as (_ & _ & _ & Hsz).
Qed.

Lemma one_record_per_event_witness :
  let txs := [(agent, call_recordPitchScore 7 80 20 18 22 20 170);
              (stranger, call_recordPitchScore 8 1 1 1 1 1 1);
              (mkEnv 1 102, call_recordPitchScore 9 60 1 2 3 4 5)] in
  size (pitchScores (run (deploy agent) txs)) = 2%nat
  /\ size (pitchScores (run (deploy agent) txs)) = length (run_logs (deploy agent) txs).
Proof.
  split; [reflexivity|].
  apply (one_record_per_event agent
           [(agent, call_recordPitchScore 7 80 20 18 22 20 170);
            (stranger, call_recordPitchScore 8 1 1 1 1 1 1);
            (mkEnv 1 102, call_recordPitchScore 9 60 1 2 3 4 5)]).
  reflexivity.
Defined.

(** *** Reads, growth, and independent writes *)

(** X7, reads do not interfere: dropping every call of a [view] entry
    point ([getPitchScore], [pitchScores], [owner]) from a sequence of
    transactions changes neither the final storage nor the events. *)
Theorem reads_do_not_interfere st txs :
  run st (List.filter is_write txs) = run st txs
  /\ run_logs st (List.filter is_write txs) = run_logs st txs.
Proof.
  revert st; induction txs as [|[env c] rest IH]; intros st; simpl; [auto|].
  destruct c as [id ov cl og tm mk zk|id|id|]; simpl.
  - destruct (IH (post (transact env (call_recordPitchScore id ov cl og tm mk zk) st)))
      as [-> ->]. auto.
  - rewrite transact_getPitchScore. destruct (exists_entry id st); simpl; apply IH.
  - apply IH.
  - apply IH.
Qed.

Lemma run_dom st txs : dom (pitchScores st) ⊆ dom (pitchScores (run st txs)).
Proof.
  revert st; induction txs as [|[env c] rest IH]; intros st; simpl; [done|].
  etrans; [|apply IH].
  destruct (transact_cases env c st)
    as [[-> _]|(i & o & c1 & c2 & c3 & c4 & z & _ & _ & _ & _ & -> & _)];
    [done|]. simpl. apply dom_insert_subseteq.
Qed.

(** X8, the registry only grows: no transaction removes a stored record.
    A pitch id that has a stored struct keeps having one after any
    sequence of transactions, and the number of stored structs never
    decreases. *)
Theorem store_only_grows st txs id :
  is_Some (pitchScores st !! id) ->
  is_Some (pitchScores (run st txs) !! id)
  /\ (size (pitchScores st) <= size (pitchScores (run st txs)))%nat.
Proof.
  intros Hin. pose proof (run_dom st txs) as Hdom. split.
  - apply elem_of_dom, Hdom, elem_of_dom, Hin.
  - rewrite <- !size_dom. by apply subseteq_size.
Qed.

Lemma store_only_grows_witness :
  let txs := [(mkEnv 1 101, call_recordPitchScore 7 55 1 2 3 4 187);
              (stranger, call_getPitchScore 7);
              (mkEnv 1 102, call_recordPitchScore 9 60 1 2 3 4 5)] in
  is_Some (pitchScores (run scenario_A_storage txs) !! 7)
  /\ (size (pitchScores scenario_A_storage)
      <= size (pitchScores (run scenario_A_storage txs)))%nat.
Proof.
  apply (store_only_grows scenario_A_storage
           [(mkEnv 1 101, call_recordPitchScore 7 55 1 2 3 4 187);
            (stranger, call_getPitchScore 7);
            (mkEnv 1 102, call_recordPitchScore 9 60 1 2 3 4 5)] 7).
  eexists. reflexivity.
Defined.

(** X9, the two read paths agree: [getPitchScore id] returns exactly what
    the generated getter [pitchScores(id)] returns whenever the timestamp
    member of that tuple is not 0, and reverts with NotFound exactly when
    it is 0. *)
Theorem read_paths_agree env st id :
  exists t,
    transact env (call_pitchScores id) st = mkReceipt (Return (ret_entry t)) st []
    /\ transact env (call_getPitchScore id) st
       = if tuple_timestamp t =? 0 then reverted st NotFound
         else mkReceipt (Return (ret_entry t)) st [].
Proof.
  exists (tuple_of (sload_pitchScores id st)). split; [reflexivity|].
  rewrite transact_getPitchScore. unfold exists_entry, tuple_timestamp. simpl.
  destruct (timestamp (sload_pitchScores id st) =? 0); reflexivity.
Qed.

Lemma run_logs_by_owner st txs :
  Forall (fun ev => ev_recordedBy ev = owner st /\ 0 < ev_overallScore ev)
         (run_logs st txs).
Proof.
  revert st; induction txs as [|[env c] rest IH]; intros st; simpl; [constructor|].
  apply Forall_app. split.
  - destruct (transact_cases env c st)
      as [[_ ->]|(i & o & c1 & c2 & c3 & c4 & z & _ & Ho & _ & Hp & _ & ->)];
      [constructor|].
    constructor; [|constructor]. simpl. auto.
  - specialize (IH (post (transact env c st))).
    by rewrite transact_owner_fixed in IH.
Qed.

(** X10: every event emitted since deployment names the deployer as
    recorder and carries a positive overall score. *)
Theorem events_by_owner env0 txs :
  Forall (fun ev => ev_recordedBy ev = msg_sender env0 /\ 0 < ev_overallScore ev)
         (run_logs (deploy env0) txs).
Proof. apply (run_logs_by_owner (deploy env0) txs). Qed.

(** X11, writes to different pitch ids are independent: two
    [recordPitchScore] transactions for different ids lead to the same
    storage in either order, each has the same status in either order, and
    the same events are emitted, up to their order. *)
Theorem independent_writes_commute st env1 env2
    id1 ov1 cl1 og1 tm1 mk1 zk1 id2 ov2 cl2 og2 tm2 mk2 zk2 :
  let c1 := call_recordPitchScore id1 ov1 cl1 og1 tm1 mk1 zk1 in
  let c2 := call_recordPitchScore id2 ov2 cl2 og2 tm2 mk2 zk2 in
  id1 <> id2 ->
  run st [(env1, c1); (env2, c2)] = run st [(env2, c2); (env1, c1)]
  /\ status (transact env1 c1 (post (transact env2 c2 st))) = status (transact env1 c1 st)
  /\ status (transact env2 c2 (post (transact env1 c1 st))) = status (transact env2 c2 st)
  /\ run_logs st [(env1, c1); (env2, c2)] ≡ₚ run_logs st [(env2, c2); (env1, c1)].
Proof.
  intros c1 c2 Hne. subst c1 c2. simpl.
  assert (Hex : forall i j e m o, i <> j ->
            exists_entry j (mkStorage (<[i := e]> m) o) = exists_entry j (mkStorage m o)).
  { intros i j e m o Hij. unfold exists_entry, sload_pitchScores; simpl.
    by rewrite lookup_insert_ne. }
  rewrite !app_nil_r. rewrite !transact_recordPitchScore.
  destruct st as [m o]; simpl.
  destruct (msg_sender env1 =? o) eqn:Ho1, (msg_sender env2 =? o) eqn:Ho2; simpl;
    rewrite ?transact_recordPitchScore; simpl; rewrite ?Ho1, ?Ho2; simpl;
    try (repeat split; reflexivity);
    destruct (exists_entry id1 (mkStorage m o)) eqn:He1,
             (exists_entry id2 (mkStorage m o)) eqn:He2; simpl;
    rewrite ?transact_recordPitchScore; simpl; rewrite ?Ho1, ?Ho2, ?He1, ?He2; simpl;
    try (repeat split; reflexivity);
    destruct (0 <? ov1) eqn:Hp1, (0 <? ov2) eqn:Hp2; simpl;
    rewrite ?transact_recordPitchScore; simpl;
    rewrite ?Ho1, ?Ho2, ?Hex, ?He1, ?He2, ?Hp1, ?Hp2 by congruence; simpl;
    rewrite ?Hp1, ?Hp2; simpl;
    try (repeat split; reflexivity).
  repeat split; try reflexivity.
  - f_equal. by apply insert_insert_ne.
  - apply Permutation_swap.
Qed.

Lemma independent_writes_commute_witness :
  let c1 := call_recordPitchScore 8 60 1 2 3 4 5 in
  let c2 := call_recordPitchScore 9 70 5 4 3 2 1 in
  run scenario_A_storage [(mkEnv 1 101, c1); (mkEnv 1 102, c2)]
    = run scenario_A_storage [(mkEnv 1 102, c2); (mkEnv 1 101, c1)].
Proof.
  apply (independent_writes_commute scenario_A_storage (mkEnv 1 101) (mkEnv 1 102)
           8 60 1 2 3 4 5 9 70 5 4 3 2 1).
  discriminate.
Defined.

End PitchRegistry.


(** * Properties of the browser script *)

Module PitchUIFacts.
Import PitchUI.

(** ** Strings *)

Lemma append_cons a s t : String a s +:+ t = String a (s +:+ t).
Proof. reflexivity. Qed.

Lemma append_nil t : "" +:+ t = t.
Proof. reflexivity. Qed.

(** ** Pitch identifiers *)

Lemma padded_counter_decodes n :
  option_map N.of_uint
    (DecimalString.NilEmpty.uint_of_string (padStart 3 "0" (String_of_number n)))
  = Some n.
Proof.
  unfold String_of_number.
  pose proof (DecimalString.NilEmpty.usu (N.to_uint n)) as Hparse.
  pose proof (DecimalN.Unsigned.of_to n) as Hback.
  destruct (DecimalString.NilEmpty.string_of_uint (N.to_uint n))
    as [|a [|b [|c rest]]]; unfold padStart; simpl in *.
  - injection Hparse as Hnil. rewrite <- Hnil in Hback. f_equal. exact Hback.
  - rewrite Hparse. simpl. by rewrite Hback.
  - rewrite Hparse. simpl. by rewrite Hback.
  - rewrite Hparse. simpl. by rewrite Hback.
Qed.

(** X12, pitch identifiers are unique: the identifier built from the
    counter determines the counter, so two submissions with different
    counter values never get the same identifier, also past 999 where the
    three-digit padding no longer applies. *)
Theorem currentPitchId_injective n m :
  currentPitchId n = currentPitchId m -> n = m.
Proof.
  unfold currentPitchId. intros H.
  rewrite !append_cons, !append_nil in H. injection H as H.
  pose proof (padded_counter_decodes n) as Hn.
  pose proof (padded_counter_decodes m) as Hm.
  rewrite H in Hn. congruence.
Qed.

Lemma currentPitchId_injective_witness :
  currentPitchId 12 = "pitch_012" /\ 12 = 12.
Proof.
  split; [reflexivity|].
  apply (currentPitchId_injective 12 12). reflexivity.
Defined.

(** X13, identifier format: while the counter is below 1000 the
    identifier is [pitch_] followed by the three decimal digits of the
    counter, hundreds first, with [0] for the digits it lacks: nine
    characters in all. *)
Theorem currentPitchId_format n :
  n < 1000 ->
  currentPitchId n
    = "pitch_" +:+ String (Ascii.ascii_of_N (48 + n / 100))
                     (String (Ascii.ascii_of_N (48 + (n / 10) mod 10))
                        (String (Ascii.ascii_of_N (48 + n mod 10)) ""))
  /\ n / 100 < 10 /\ (n / 10) mod 10 < 10 /\ n mod 10 < 10
  /\ n = 100 * (n / 100) + 10 * ((n / 10) mod 10) + n mod 10
  /\ String.length (currentPitchId n) = 9%nat.
Proof.
  intros Hlt.
  assert (Hall : forallb (fun k =>
            String.eqb (currentPitchId (N.of_nat k))
              ("pitch_" +:+ String (Ascii.ascii_of_N (48 + N.of_nat k / 100))
                 (String (Ascii.ascii_of_N (48 + (N.of_nat k / 10) mod 10))
                    (String (Ascii.ascii_of_N (48 + N.of_nat k mod 10)) ""))))
            (seq 0 1000) = true) by (vm_compute; reflexivity).
  rewrite forallb_forall in Hall.
  specialize (Hall (N.to_nat n)). rewrite N2Nat.id in Hall.
  assert (Hin : In (N.to_nat n) (seq 0 1000)) by (apply in_seq; lia).
  apply Hall, String.eqb_eq in Hin.
  split; [exact Hin|].
  split; [apply N.Div0.div_lt_upper_bound; lia|].
  split; [apply N.mod_lt; lia|].
  split; [apply N.mod_lt; lia|].
  split; [|rewrite Hin; reflexivity].
  pose proof (N.Div0.div_mod n 10) as H10.
  pose proof (N.Div0.div_mod (n / 10) 10) as H100.
  assert (Hdd : n / 10 / 10 = n / 100) by (rewrite N.Div0.div_div; reflexivity).
  lia.
Qed.

Lemma currentPitchId_format_witness :
  currentPitchId 42 = "pitch_042"
  /\ String.length (currentPitchId 42) = 9%nat.
Proof.
  destruct (currentPitchId_format 42) as (Hid & _ & _ & _ & _ & Hlen);
    [reflexivity|].
  split; [exact Hid | exact Hlen].
Defined.

(** ** Trimming *)

Lemma trimStart_whitespace ws rest :
  forallb isWhiteSpace ws = true -> trimStart (ws ++ rest) = trimStart rest.
Proof.
  induction ws as [|c ws IH]; simpl; [reflexivity|].
  intros [Hc Hws]%andb_true_iff. rewrite Hc. by apply IH.
Qed.

Lemma trimStart_stop c rest :
  isWhiteSpace c = false -> trimStart (c :: rest) = c :: rest.
Proof. intros Hc. simpl. by rewrite Hc. Qed.

Lemma forallb_rev {A} (f : A -> bool) l : forallb f (rev l) = forallb f l.
Proof.
  induction l as [|x l IH]; simpl; [reflexivity|].
  rewrite forallb_app, IH. simpl. rewrite andb_true_r. apply andb_comm.
Qed.

Lemma trim_whitespace ws : forallb isWhiteSpace ws = true -> trim ws = [].
Proof.
  intros Hws. unfold trim, trimEnd.
  rewrite <- (app_nil_r ws), trimStart_whitespace by exact Hws. reflexivity.
Qed.

Lemma trim_core ws1 core ws2 a z :
  forallb isWhiteSpace ws1 = true ->
  forallb isWhiteSpace ws2 = true ->
  head core = Some a -> isWhiteSpace a = false ->
  last core = Some z -> isWhiteSpace z = false ->
  trim (ws1 ++ core ++ ws2) = core.
Proof.
  intros H1 H2 [tl Htl]%head_Some Ha [body Hbody]%last_Some Hz.
  unfold trim, trimEnd.
  rewrite trimStart_whitespace by exact H1.
  assert (Hfront : trimStart (core ++ ws2) = core ++ ws2).
  { rewrite Htl. rewrite <- app_comm_cons. by apply trimStart_stop. }
  rewrite Hfront, rev_app_distr.
  rewrite trimStart_whitespace by (by rewrite forallb_rev).
  rewrite Hbody, rev_app_distr. simpl. rewrite Hz. simpl.
  by rewrite rev_involutive.
Qed.

(** ** Class lists *)

Lemma classList_contains_add token l :
  classList_contains token (classList_add token l) = true.
Proof.
  unfold classList_add. destruct (classList_contains token l) eqn:E; [exact E|].
  unfold classList_contains. rewrite existsb_app. simpl.
  rewrite String.eqb_refl. by rewrite orb_true_r.
Qed.

Lemma classList_contains_remove token l :
  classList_contains token (classList_remove token l) = false.
Proof.
  unfold classList_contains, classList_remove.
  induction l as [|t l IH]; simpl; [reflexivity|].
  destruct (String.eqb t token) eqn:E; simpl; [exact IH|].
  rewrite String.eqb_sym, E. exact IH.
Qed.

(** ** The analyze handler *)

(** X14, blank text counts as no input: with no file chosen and a text
    made of white space only (or empty), whatever its length, the handler
    shows "Please upload a pitch file or paste pitch text.", sends
    nothing and leaves the counter. *)
Theorem blank_text_is_missing_input rnd p :
  pitchFile (dom p) = None ->
  forallb isWhiteSpace (pitchText (dom p)) = true ->
  analyzeClick rnd p
    = reject "Please upload a pitch file or paste pitch text." (loading p)
  /\ snd (analyzeClick rnd p) = None
  /\ pitchIdCounter (fst (analyzeClick rnd p)) = pitchIdCounter p
  /\ messageBox_text (dom (fst (analyzeClick rnd p)))
     = "Please upload a pitch file or paste pitch text.".
Proof.
  intros Hfile Hws.
  assert (H : analyzeClick rnd p
              = reject "Please upload a pitch file or paste pitch text." (loading p)).
  { unfold analyzeClick, loading. destruct p as [d n]; simpl in *.
    rewrite Hfile. simpl. rewrite (trim_whitespace _ Hws). reflexivity. }
  rewrite H. auto.
Qed.

Lemma blank_text_is_missing_input_witness :
  let p := fill_in (mkSubmission None (repeat 32 (N.to_nat 20000) ++ [9; 10; 160])
                      (mkDraws 0 0 0 0 0 (fun _ => 0) (fun _ => 0))) initial_page in
  snd (analyzeClick (mkDraws 0 0 0 0 0 (fun _ => 0) (fun _ => 0)) p) = None.
Proof.
  apply (blank_text_is_missing_input (mkDraws 0 0 0 0 0 (fun _ => 0) (fun _ => 0))
           (fill_in (mkSubmission None (repeat 32 (N.to_nat 20000) ++ [9; 10; 160])
                       (mkDraws 0 0 0 0 0 (fun _ => 0) (fun _ => 0))) initial_page)).
  - reflexivity.
  - vm_compute. reflexivity.
Defined.

(** X15, the text limit applies to the trimmed text: with no file chosen,
    white space around the text is dropped before the length check; the
    text between is sent as [pitch_content] when it has at most 10000
    code units, and nothing is sent when it has more. *)
Theorem surrounding_whitespace_is_dropped rnd p ws1 core ws2 a z :
  pitchFile (dom p) = None ->
  pitchText (dom p) = ws1 ++ core ++ ws2 ->
  forallb isWhiteSpace ws1 = true ->
  forallb isWhiteSpace ws2 = true ->
  head core = Some a -> isWhiteSpace a = false ->
  last core = Some z -> isWhiteSpace z = false ->
  snd (analyzeClick rnd p)
    = if 10000 <? N.of_nat (length core) then None
      else Some {| pitch_id := currentPitchId (pitchIdCounter p + 1);
                   pitch_content := Some core;
                   file_path := None |}.
Proof.
  intros Hfile Htext H1 H2 Ha Hna Hz Hnz.
  unfold analyzeClick, loading. destruct p as [d n]; simpl in *.
  rewrite Hfile, Htext. simpl.
  rewrite (trim_core ws1 core ws2 a z) by assumption.
  apply head_Some in Ha as [tl ->].
  destruct (10000 <? N.of_nat (length (a :: tl))); reflexivity.
Qed.

Lemma surrounding_whitespace_is_dropped_witness :
  let rnd := mkDraws 0 0 0 0 0 (fun _ => 0) (fun _ => 0) in
  let p := fill_in (mkSubmission None (repeat 32 (N.to_nat 9000) ++ [104; 105] ++ repeat 10 (N.to_nat 2000)) rnd)
                   initial_page in
  snd (analyzeClick rnd p)
    = Some {| pitch_id := "pitch_001"; pitch_content := Some [104; 105];
              file_path := None |}.
Proof.
  apply (surrounding_whitespace_is_dropped
           (mkDraws 0 0 0 0 0 (fun _ => 0) (fun _ => 0))
           (fill_in (mkSubmission None (repeat 32 (N.to_nat 9000) ++ [104; 105] ++ repeat 10 (N.to_nat 2000))
                       (mkDraws 0 0 0 0 0 (fun _ => 0) (fun _ => 0))) initial_page)
           (repeat 32 (N.to_nat 9000)) [104; 105] (repeat 10 (N.to_nat 2000)) 104 105);
    vm_compute; reflexivity.
Defined.

(** X16, a chosen file takes precedence and its text is never sent: with a
    file chosen the typed text plays no part; nothing is sent when the
    file cannot be read or has more than 20000 code units, and otherwise
    the payload carries the file's name and no content (an empty file
    included). *)
Theorem file_takes_precedence rnd p f :
  pitchFile (dom p) = Some f ->
  snd (analyzeClick rnd p)
    = match readAsText f with
      | ReadOk text =>
          if 20000 <? N.of_nat (length text) then None
          else Some {| pitch_id := currentPitchId (pitchIdCounter p + 1);
                       pitch_content := None;
                       file_path := Some (name f) |}
      | ReadError _ => None
      end.
Proof.
  intros Hfile. unfold analyzeClick, loading. destruct p as [d n]; simpl in *.
  rewrite Hfile. simpl. destruct (readAsText f) as [text|msg]; [|reflexivity].
  destruct (20000 <? N.of_nat (length text)); reflexivity.
Qed.

Lemma file_takes_precedence_witness :
  let rnd := mkDraws 0 0 0 0 0 (fun _ => 0) (fun _ => 0) in
  let p := fill_in (mkSubmission (Some (mkFile [97; 46; 116; 120; 116] (ReadOk [])))
                      (repeat 120 (N.to_nat 10001)) rnd) initial_page in
  snd (analyzeClick rnd p)
    = Some {| pitch_id := "pitch_001"; pitch_content := None;
              file_path := Some [97; 46; 116; 120; 116] |}.
Proof.
  apply (file_takes_precedence
           (mkDraws 0 0 0 0 0 (fun _ => 0) (fun _ => 0))
           (fill_in (mkSubmission (Some (mkFile [97; 46; 116; 120; 116] (ReadOk [])))
                       (repeat 120 (N.to_nat 10001))
                       (mkDraws 0 0 0 0 0 (fun _ => 0) (fun _ => 0))) initial_page)
           (mkFile [97; 46; 116; 120; 116] (ReadOk []))).
  reflexivity.
Defined.

(** However the handler ends, it ends in [reject] or in [submit]. *)
Lemma analyzeClick_cases rnd p :
  (exists message, analyzeClick rnd p = reject message (loading p))
  \/ (exists inputType pitchContent,
        analyzeClick rnd p
          = submit rnd (loading p) inputType pitchContent (pitchFile (dom p))).
Proof.
  unfold analyzeClick.
  assert (Hf : pitchFile (dom (loading p)) = pitchFile (dom p)) by reflexivity.
  rewrite Hf.
  destruct (pitchFile (dom p)) as [f|].
  - destruct (readAsText f) as [text|msg]; [|left; eauto].
    destruct (20000 <? N.of_nat (length text)); [left|right]; eauto.
  - destruct (trim (pitchText (dom (loading p)))) as [|c rest]; [left; eauto|].
    destruct (10000 <? N.of_nat (length (c :: rest))); [left|right]; eauto.
Qed.

(** X17, the page never stays in the loading state: however the analyze
    handler ends (missing input, unreadable or oversized file, overlong
    text, or a completed analysis), both buttons are enabled again, the
    button reads "Analyze Pitch" and the spinner is hidden. *)
Theorem loading_always_cleared rnd p :
  let d := dom (fst (analyzeClick rnd p)) in
  analyzeBtn d = false
  /\ clearBtn d = false
  /\ buttonText d = "Analyze Pitch"
  /\ classList_contains "hidden" (loadingSpinner d) = true.
Proof.
  destruct (analyzeClick_cases rnd p) as [[msg ->]|(it & content & ->)]; simpl;
    repeat split; apply classList_contains_add.
Qed.

(** X18, what a submission leaves on the page. When nothing was sent, the
    counter is unchanged, the results section is hidden and the message
    box carries the error styling without [hidden]; [index.html] places
    the message box inside the results section. When a payload was sent,
    the counter went up by one and names the payload, the results section
    and the message box are not hidden, the message has the success
    styling and the status shown is "completed". *)
Theorem submission_outcome rnd p :
  let r := analyzeClick rnd p in
  let d := dom (fst r) in
  match snd r with
  | None =>
      pitchIdCounter (fst r) = pitchIdCounter p
      /\ classList_contains "hidden" (resultsSection d) = true
      /\ classList_contains "hidden" (messageBox_class d) = false
      /\ classList_contains "bg-red-100" (messageBox_class d) = true
      /\ display d = display (dom p)
  | Some payload =>
      pitchIdCounter (fst r) = pitchIdCounter p + 1
      /\ pitch_id payload = currentPitchId (pitchIdCounter p + 1)
      /\ classList_contains "hidden" (resultsSection d) = false
      /\ classList_contains "hidden" (messageBox_class d) = false
      /\ classList_contains "bg-green-100" (messageBox_class d) = true
      /\ status (display d) = "completed"
  end.
Proof.
  destruct (analyzeClick_cases rnd p) as [[msg ->]|(it & content & ->)]; simpl.
  - repeat split; try reflexivity. apply classList_contains_add.
  - repeat split; try reflexivity. apply classList_contains_remove.
Qed.

Lemma analyzeClick_counter rnd p :
  match snd (analyzeClick rnd p) with
  | None => pitchIdCounter (fst (analyzeClick rnd p)) = pitchIdCounter p
  | Some payload =>
      pitchIdCounter (fst (analyzeClick rnd p)) = pitchIdCounter p + 1
      /\ pitch_id payload = currentPitchId (pitchIdCounter p + 1)
  end.
Proof.
  destruct (analyzeClick_cases rnd p) as [[msg ->]|(it & content & ->)]; simpl; auto.
Qed.

Lemma session_ids p subs :
  let sent := snd (session p subs) in
  pitchIdCounter (fst (session p subs)) = pitchIdCounter p + N.of_nat (length sent)
  /\ map pitch_id sent
     = map (fun k => currentPitchId (pitchIdCounter p + N.of_nat k)) (seq 1 (length sent)).
Proof.
  revert p; induction subs as [|s rest IH]; intros p; simpl.
  - split; [lia | reflexivity].
  - pose proof (analyzeClick_counter (draws s) (fill_in s p)) as Hstep.
    destruct (analyzeClick (draws s) (fill_in s p)) as [p' sent1]; simpl in Hstep.
    specialize (IH p').
    destruct (session p' rest) as [p'' more]; simpl in IH |- *.
    destruct IH as [IHc IHm].
    destruct sent1 as [pl|]; simpl.
    + destruct Hstep as [Hc Hid]. split; [lia|].
      f_equal; [rewrite Hid; f_equal; lia|].
      rewrite IHm, <- (seq_shift (length more) 1), map_map.
      apply map_ext. intros k. f_equal. lia.
    + split; [lia|]. rewrite IHm, Hstep. reflexivity.
Qed.

(** X19, identifiers are handed out consecutively: over any sequence of
    submissions, the payloads sent carry the identifiers of the counter
    values that follow the starting one, in order and without gaps;
    rejected submissions use none up, and the counter ends at the number
    of payloads sent. *)
Theorem session_ids_consecutive subs :
  let sent := snd (session initial_page subs) in
  map pitch_id sent = map (fun k => currentPitchId (N.of_nat k)) (seq 1 (length sent))
  /\ pitchIdCounter (fst (session initial_page subs)) = N.of_nat (length sent).
Proof.
  destruct (session_ids initial_page subs) as [Hc Hm]. simpl in *.
  split; [exact Hm | exact Hc].
Qed.

(** X20, clearing really clears: after the clear handler, whatever the
    page showed and whatever was chosen or typed, a click on the analyze
    button is answered with "Please upload a pitch file or paste pitch
    text.", sends nothing and leaves the counter. *)
Theorem clear_then_analyze rnd p :
  let r := analyzeClick rnd (clearClick p) in
  snd r = None
  /\ pitchIdCounter (fst r) = pitchIdCounter p
  /\ messageBox_text (dom (fst r)) = "Please upload a pitch file or paste pitch text."
  /\ pitchFile (dom (fst r)) = None
  /\ pitchText (dom (fst r)) = [].
Proof. repeat split. Qed.

(** ** The simulated hashes *)

Lemma length_append s t :
  String.length (s +:+ t) = (String.length s + String.length t)%nat.
Proof. induction s as [|a s IH]; simpl; [reflexivity | by rewrite IH]. Qed.

Lemma hex_byte_length b :
  b < 256 -> String.length (padStart 2 "0" (toString16 b)) = 2%nat.
Proof.
  intros Hlt.
  assert (Hall : forallb (fun k =>
            Nat.eqb (String.length (padStart 2 "0" (toString16 (N.of_nat k)))) 2)
            (seq 0 256) = true) by (vm_compute; reflexivity).
  rewrite forallb_forall in Hall.
  specialize (Hall (N.to_nat b)). rewrite N2Nat.id in Hall.
  apply Nat.eqb_eq, Hall, in_seq. lia.
Qed.

Lemma concat_length (l : list string) :
  Forall (fun s => String.length s = 2%nat) l ->
  String.length (String.concat "" l) = (2 * length l)%nat.
Proof.
  induction 1 as [|x l Hx Hl IH]; [reflexivity|].
  destruct l as [|y l']; [simpl; lia|].
  change (String.concat "" (x :: y :: l')) with (x +:+ "" +:+ String.concat "" (y :: l')).
  rewrite !length_append, IH, Hx. simpl. lia.
Qed.

(** X21: whatever bytes are drawn, the simulated proof hash and
    transaction hash are [0x] followed by 64 characters, two hex digits
    for each of the 32 bytes: 66 characters in all. *)
Theorem simulated_hashes_have_66_characters rnd payload :
  (forall i, draw_zkp_hash rnd i < 256) ->
  (forall i, draw_tx_hash rnd i < 256) ->
  let results := simulateAgentRun rnd payload in
  exists zkp_digits tx_digits,
    zkp_hash results = "0x" +:+ zkp_digits
    /\ String.length zkp_digits = 64%nat
    /\ on_chain_tx_hash results = "0x" +:+ tx_digits
    /\ String.length tx_digits = 64%nat
    /\ String.length (zkp_hash results) = 66%nat
    /\ String.length (on_chain_tx_hash results) = 66%nat.
Proof.
  intros Hz Ht results.
  assert (Hlen : forall draw, (forall i, draw i < 256) ->
            String.length
              (String.concat ""
                 (map (fun i => padStart 2 "0" (toString16 (draw i))) (seq 0 32)))
            = 64%nat).
  { intros draw Hd. rewrite concat_length.
    - rewrite length_map, length_seq. reflexivity.
    - apply Forall_map, Forall_forall. intros i _. by apply hex_byte_length. }
  subst results. unfold simulateAgentRun, hex32. cbn [zkp_hash on_chain_tx_hash].
  eexists _, _. split; [reflexivity|]. split; [by apply Hlen|].
  split; [reflexivity|]. split; [by apply Hlen|].
  rewrite !length_append, !Hlen by assumption. split; reflexivity.
Qed.

Lemma simulated_hashes_have_66_characters_witness :
  let rnd := mkDraws 3 4 5 6 7 (fun i => N.of_nat (Nat.modulo i 256)) (fun _ => 255) in
  let results := simulateAgentRun rnd (mkPayload "pitch_001" None None) in
  exists zkp_digits tx_digits,
    zkp_hash results = "0x" +:+ zkp_digits
    /\ String.length zkp_digits = 64%nat
    /\ on_chain_tx_hash results = "0x" +:+ tx_digits
    /\ String.length tx_digits = 64%nat
    /\ String.length (zkp_hash results) = 66%nat
    /\ String.length (on_chain_tx_hash results) = 66%nat.
Proof.
  apply (simulated_hashes_have_66_characters
           (mkDraws 3 4 5 6 7 (fun i => N.of_nat (Nat.modulo i 256)) (fun _ => 255))
           (mkPayload "pitch_001" None None)).
  - intros i. simpl. pose proof (Nat.mod_upper_bound i 256). lia.
  - intros i. simpl. lia.
Defined.

End PitchUIFacts.
